(** * Document Q&A assistant: a shallow embedding of the upload, prompt and
      chat-submission code, and the properties of it that the specification
      states.

    Sources embedded here:
    - [types.ts]                  : [DocumentFile], [ChatMessage];
    - [services/geminiService.ts] : [askAboutDocuments] (prompt composition
      and the one network call);
    - the [App] component         : [handleFileChange], [removeDocument],
      [handleSubmit], [handleSuggestionClick] and the five [useState] cells.

    JavaScript strings are sequences of UTF-16 code units; they are modelled
    as lists of code units so that [trim], [join], template literals and
    [+=] are the list operations they are in the language.  Asynchronous
    code is modelled by an event system: a handler runs up to its first
    [await]; what it awaits (a network answer, the completion of a file
    task) arrives later as an event of its own, chosen by the environment.
    A handler reads the state cells that its render captured, not the ones
    set since; a render is an event as well, and every statement says which
    of the two it speaks of. *)

From Stdlib Require Import NArith Ascii String Decimal DecimalN DecimalPos.
From stdpp Require Import base list sorting.

Open Scope N_scope.
Open Scope list_scope.

(** ** JavaScript strings *)

Module JsString.

Definition code_unit := N.
Definition jsstring := list code_unit.

(** An ASCII literal of the source, as code units. *)
Definition lit (s : string) : jsstring :=
  map N_of_ascii (list_ascii_of_string s).

Definition LF : jsstring := [10].
Definition SP : jsstring := [32].
Definition DQUOTE : jsstring := [34].

(** Truthiness of a string: only [''] is falsy. *)
Definition truthy (s : jsstring) : bool :=
  match s with [] => false | _ :: _ => true end.

(** [Array.prototype.join] on an array of strings. *)
Fixpoint join (sep : jsstring) (parts : list jsstring) : jsstring :=
  match parts with
  | [] => []
  | [p] => p
  | p :: rest => p ++ sep ++ join sep rest
  end.

(** ECMAScript [WhiteSpace] and [LineTerminator] code points, the ones
    [String.prototype.trim] strips (all of them are single code units). *)
Definition is_white_space (c : code_unit) : bool :=
  (c =? 0x9) || (c =? 0xB) || (c =? 0xC) || (c =? 0x20) || (c =? 0xA0)
  || (c =? 0xFEFF) || (c =? 0x1680) || ((0x2000 <=? c) && (c <=? 0x200A))
  || (c =? 0x202F) || (c =? 0x205F) || (c =? 0x3000).

Definition is_line_terminator (c : code_unit) : bool :=
  (c =? 0xA) || (c =? 0xD) || (c =? 0x2028) || (c =? 0x2029).

Definition is_trimmed (c : code_unit) : bool :=
  is_white_space c || is_line_terminator c.

Fixpoint trimStart (s : jsstring) : jsstring :=
  match s with
  | [] => []
  | c :: rest => if is_trimmed c then trimStart rest else s
  end.

Definition trimEnd (s : jsstring) : jsstring := rev (trimStart (rev s)).

Definition trim (s : jsstring) : jsstring := trimEnd (trimStart s).

(** [Number.prototype.toString] on a non-negative integer below 2^53: its
    decimal digits, no sign, no leading zero. *)
Fixpoint digits (d : Decimal.uint) : jsstring :=
  match d with
  | Nil => []
  | D0 d => 48 :: digits d
  | D1 d => 49 :: digits d
  | D2 d => 50 :: digits d
  | D3 d => 51 :: digits d
  | D4 d => 52 :: digits d
  | D5 d => 53 :: digits d
  | D6 d => 54 :: digits d
  | D7 d => 55 :: digits d
  | D8 d => 56 :: digits d
  | D9 d => 57 :: digits d
  end.

Definition toString (n : N) : jsstring :=
  match N.to_uint n with
  | Nil => [48]
  | d => digits d
  end.

(** [pieces] occur in [s] as consecutive, non-overlapping substrings, in
    the order of the list. *)
Fixpoint occur_in_order (pieces : list jsstring) (s : jsstring) : Prop :=
  match pieces with
  | [] => True
  | p :: ps => exists before after,
      s = before ++ p ++ after /\ occur_in_order ps after
  end.

#[global] Arguments lit : simpl never.
#[global] Arguments toString : simpl never.

End JsString.

Import JsString.

(** ** [types.ts] *)

Record DocumentFile := mkDocumentFile {
  name : jsstring;
  content : jsstring
}.

#[global] Instance DocumentFile_eq_dec : EqDecision DocumentFile.
Proof. solve_decision. Defined.

Inductive Sender := user | ai.

Record ChatMessage := mkChatMessage {
  id : jsstring;
  sender : Sender;
  text : jsstring
}.

(** A value that can be thrown or be the reason of a rejected promise:
    an [Error] object with its [message], or anything else. *)
Inductive Thrown :=
| Error (message : jsstring)
| NotAnError.

(** ** [services/geminiService.ts] *)

Module GeminiService.

Definition SYSTEM_INSTRUCTION : jsstring :=
  lit "You are an intelligent assistant built to analyze and answer questions about uploaded documents. Your primary goal is to provide clear, accurate, and concise answers based ONLY on the text from the documents provided."
  ++ LF ++ LF
  ++ lit "Answering Rules:" ++ LF
  ++ lit "1.  **Strictly Grounded:** Base your entire response strictly on the content of the provided document(s). Do not use any external knowledge." ++ LF
  ++ lit "2.  **Cite Sources:** If possible, include a brief reference to where the information was found (e.g., section name, document name, or a key phrase). Format it at the end of your main answer, starting with "
  ++ DQUOTE ++ lit "Source:" ++ DQUOTE ++ lit "." ++ LF
  ++ lit "3.  **Handle Uncertainty:** If the answer to a question cannot be found in the document, you MUST respond with the exact phrase: "
  ++ DQUOTE ++ lit "This information doesn" ++ [0x2019] ++ lit "t appear in the provided document." ++ DQUOTE ++ LF
  ++ lit "4.  **Summaries:** When asked for a summary, provide it in a simple, factual, bullet-point list." ++ LF
  ++ lit "5.  **Clarity and Conciseness:** Keep your answers direct and to the point." ++ LF.

(** [process.env]: the credential may be undefined. *)
Record ProcessEnv := mkEnv { API_KEY : option jsstring }.

(** [!process.env.API_KEY]: undefined and [''] are both falsy. *)
Definition missing (key : option jsstring) : bool :=
  match key with
  | None => true
  | Some k => negb (truthy k)
  end.

(** The argument of [ai.models.generateContent]. *)
Record GenerateContentParameters := mkRequest {
  model : jsstring;
  contents : jsstring;
  systemInstruction : jsstring
}.

Record GenerateContentResponse := mkResponse { response_text : jsstring }.

(** The template literal mapped over the documents: one labeled block. *)
Definition documentBlock (doc : DocumentFile) : jsstring :=
  LF ++ lit "---" ++ LF
  ++ lit "Document: " ++ name doc ++ LF
  ++ lit "Content:" ++ LF
  ++ content doc ++ LF
  ++ lit "---" ++ LF
  ++ lit "  ".

Definition documentsContext (documents : list DocumentFile) : jsstring :=
  join LF (map documentBlock documents).

Definition userPrompt (question : jsstring) (documents : list DocumentFile)
  : jsstring :=
  LF ++ lit "CONTEXT FROM DOCUMENTS:" ++ LF
  ++ documentsContext documents ++ LF
  ++ LF
  ++ lit "Based on the document(s) provided, answer the following question." ++ LF
  ++ LF
  ++ lit "USER QUESTION:" ++ LF
  ++ question ++ LF.

(** An [async] function with one [await]: it has thrown before reaching
    it, or it is suspended on the network call it has just issued. *)
Inductive Suspended :=
| Throws (e : Thrown)
| Awaits (req : GenerateContentParameters).

(** [askAboutDocuments], up to and including the call of
    [ai.models.generateContent]. *)
Definition askAboutDocuments (env : ProcessEnv) (question : jsstring)
    (documents : list DocumentFile) : Suspended :=
  if missing (API_KEY env)
  then Throws (Error (lit "API_KEY environment variable not set"))
  else Awaits {| model := lit "gemini-2.5-flash";
                 contents := userPrompt question documents;
                 systemInstruction := SYSTEM_INSTRUCTION |}.

(** [askAboutDocuments], from the settlement of the awaited call on: the
    [try] returns the response's text, the [catch] replaces whatever was
    thrown by one fixed [Error]. *)
Definition askAboutDocuments_resume
    (outcome : Thrown + GenerateContentResponse) : Thrown + jsstring :=
  match outcome with
  | inr response => inr (response_text response)
  | inl _ =>
      inl (Error (lit "Failed to get a response from the AI. Please check the console for details."))
  end.

(** The network calls a suspended invocation has issued. *)
Definition network_calls (s : Suspended) : list GenerateContentParameters :=
  match s with
  | Throws _ => []
  | Awaits req => [req]
  end.

#[global] Arguments SYSTEM_INSTRUCTION : simpl never.
#[global] Arguments userPrompt : simpl never.

End GeminiService.

Import GeminiService.

(** ** Awaiting something that may throw *)

Definition bind_thrown {A B : Type} (r : Thrown + A) (k : A -> Thrown + B)
  : Thrown + B :=
  match r with
  | inl e => inl e
  | inr a => k a
  end.

Notation "'await' x ':=' r 'in' k" := (bind_thrown r (fun x => k))
  (at level 10, x name, r at level 99, k at level 200).

(** ** The part of pdf.js the upload handler uses *)

Module Pdf.

(** An item of a page's text content either has a [str] or is marked
    content without one. *)
Inductive TextContentItem :=
| TextItem (str : jsstring)
| TextMarkedContent.

Record PDFPageProxy := mkPage {
  getTextContent : Thrown + list TextContentItem
}.

Record PDFDocumentProxy := mkPdf {
  numPages : nat;
  getPage : nat -> Thrown + PDFPageProxy
}.

End Pdf.

Import Pdf.

(** ** The [App] component *)

Module App.

(** What the browser yields for a selected file: its name and media type,
    what pdf.js makes of its bytes ([file.arrayBuffer()] followed by
    [getDocument(..).promise]) and what a [FileReader] reads from it as
    text ([onload] with the result, or [onerror]). *)
Record File := mkFile {
  file_name : jsstring;
  file_type : jsstring;
  getDocument : Thrown + PDFDocumentProxy;
  readAsText : Thrown + jsstring
}.

(** [item => ('str' in item ? item.str : '')] *)
Definition itemStr (item : TextContentItem) : jsstring :=
  match item with
  | TextItem str => str
  | TextMarkedContent => []
  end.

(** [textContent.items.map(..).join(' ')] *)
Definition pageText (items : list TextContentItem) : jsstring :=
  join SP (map itemStr items).

(** The loop [for (let i = 1; i <= pdf.numPages; i++)], with [remaining]
    the number of iterations still to run ([numPages + 1 - i]). *)
Fixpoint readPages (pdf : PDFDocumentProxy) (remaining i : nat)
    (fullText : jsstring) : Thrown + jsstring :=
  match remaining with
  | O => inr fullText
  | S remaining' =>
      await page := getPage pdf i in
      await items := getTextContent page in
      readPages pdf remaining' (S i) (fullText ++ (pageText items ++ LF ++ LF))
  end.

(** The body of the [try] up to [content]. *)
Definition readContent (file : File) : Thrown + jsstring :=
  if decide (file_type file = lit "application/pdf")
  then await pdf := getDocument file in
       readPages pdf (numPages pdf) 1 []
  else readAsText file.

(** One per-file promise: rejected with what was thrown, or resolved after
    having pushed a document when the content is not empty. *)
Definition fileTask (file : File) : Thrown + option DocumentFile :=
  await content := readContent file in
  inr (if truthy content
       then Some {| name := file_name file; content := content |}
       else None).

(** The five [useState] cells. *)
Record AppState := mkState {
  documents : list DocumentFile;
  messages : list ChatMessage;
  userInput : jsstring;
  isLoading : bool;
  error : option jsstring
}.

Definition setDocuments (f : list DocumentFile -> list DocumentFile)
    (st : AppState) : AppState :=
  mkState (f (documents st)) (messages st) (userInput st) (isLoading st)
          (error st).

Definition setMessages (f : list ChatMessage -> list ChatMessage)
    (st : AppState) : AppState :=
  mkState (documents st) (f (messages st)) (userInput st) (isLoading st)
          (error st).

Definition setUserInput (v : jsstring) (st : AppState) : AppState :=
  mkState (documents st) (messages st) v (isLoading st) (error st).

Definition setIsLoading (v : bool) (st : AppState) : AppState :=
  mkState (documents st) (messages st) (userInput st) v (error st).

Definition setError (v : option jsstring) (st : AppState) : AppState :=
  mkState (documents st) (messages st) (userInput st) (isLoading st) v.

Inductive PromiseState := pending | fulfilled | rejected.

#[global] Instance PromiseState_eq_dec : EqDecision PromiseState.
Proof. solve_decision. Defined.

(** One invocation of [handleFileChange] with its two local arrays: the
    files' promises, the shared [newDocs] the tasks push to, and the
    state of [Promise.all(readPromises)]. *)
Record Batch := mkBatch {
  files : list File;
  readPromises : list PromiseState;
  newDocs : list DocumentFile;
  all : PromiseState
}.

(** The application state together with what is pending around it.
    [ui] holds the state cells as the last update left them: a setter
    writes there, and a functional update ([prev => ..]) reads there.
    [rendered] holds the state cells as of the last render: the handlers
    and attributes of that render captured these values, and they are what
    a handler reads when it names [isLoading], [documents] or [userInput].
    Around them: the upload batches, the network calls awaiting an answer,
    and the record of every call issued so far ([sent] is read by no
    handler; it is kept to state how many calls were made). *)
Record World := mkWorld {
  env : ProcessEnv;
  ui : AppState;
  rendered : AppState;
  uploads : list Batch;
  inflight : list GenerateContentParameters;
  sent : list GenerateContentParameters
}.

Definition with_ui (st : AppState) (w : World) : World :=
  mkWorld (env w) st (rendered w) (uploads w) (inflight w) (sent w).

Definition with_uploads (bs : list Batch) (w : World) : World :=
  mkWorld (env w) (ui w) (rendered w) bs (inflight w) (sent w).

(** [.then(() => setDocuments(prevDocs => [...prevDocs, ...newDocs]))] *)
Definition onFulfilled (newDocs : list DocumentFile) (st : AppState)
  : AppState :=
  setDocuments (fun prevDocs => prevDocs ++ newDocs) st.

(** [.catch(err => { console.error(..); setError(..) })] *)
Definition onRejected (st : AppState) : AppState :=
  setError (Some (lit "There was an error reading one or more files. Please ensure they are valid text or PDF files.")) st.

(** [handleFileChange]: every task starts and suspends at its first
    [await]; [Promise.all] of no promise at all is fulfilled at once.  The
    reset of the input element's value is not part of the state. *)
Definition handleFileChange (selected : option (list File)) (w : World)
  : World :=
  match selected with
  | None => w
  | Some [] =>
      with_ui (onFulfilled [] (ui w))
        (with_uploads (uploads w ++ [mkBatch [] [] [] fulfilled]) w)
  | Some fs =>
      with_uploads
        (uploads w ++ [mkBatch fs (replicate (length fs) pending) [] pending])
        w
  end.

Definition allFulfilled (ps : list PromiseState) : bool :=
  forallb (fun p => bool_decide (p = fulfilled)) ps.

#[global] Arguments allFulfilled : simpl never.

(** [reject(err)] in the [i]-th task: its promise is rejected, and so is
    [Promise.all] unless it is settled already. *)
Definition rejectTask (i : nat) (batch : Batch) : Batch :=
  mkBatch (files batch) (<[i := rejected]> (readPromises batch))
          (newDocs batch)
          (match all batch with
           | pending => rejected
           | settled => settled
           end).

(** [if (content) newDocs.push(..); resolve()] in the [i]-th task: the
    document, if any, goes to the end of the shared [newDocs], the promise
    is fulfilled, and so is [Promise.all] once every promise is. *)
Definition resolveTask (i : nat) (pushed : option DocumentFile)
    (batch : Batch) : Batch :=
  let promises := <[i := fulfilled]> (readPromises batch) in
  mkBatch (files batch) promises (newDocs batch ++ option_list pushed)
          (match all batch with
           | pending => if allFulfilled promises then fulfilled else pending
           | settled => settled
           end).

(** The reactions registered on [Promise.all(readPromises)]: [then] runs
    when it becomes fulfilled, [catch] when it becomes rejected. *)
Definition react (before after : Batch) (st : AppState) : AppState :=
  match all before, all after with
  | pending, fulfilled => onFulfilled (newDocs after) st
  | pending, rejected => onRejected st
  | _, _ => st
  end.

(** The [i]-th task of the [b]-th batch runs to its end; nothing happens
    if there is no such task or if it has ended already. *)
Definition taskSettled (b i : nat) (w : World) : World :=
  match uploads w !! b with
  | None => w
  | Some batch =>
      match files batch !! i, readPromises batch !! i with
      | Some file, Some pending =>
          let batch' :=
            match fileTask file with
            | inl err => rejectTask i batch
            | inr pushed => resolveTask i pushed batch
            end in
          with_ui (react batch batch' (ui w))
                  (with_uploads (<[b := batch']> (uploads w)) w)
      | _, _ => w
      end
  end.

(** [removeDocument] *)
Definition removeDocument (docName : jsstring) (st : AppState) : AppState :=
  setDocuments (fun docs => filter (fun doc => name doc <> docName) docs) st.

(** [handleSubmit], from the settlement of [askAboutDocuments] on: the
    rest of the [try], the [catch] and the [finally]; [now] is what
    [Date.now()] returns there. *)
Definition handleSubmit_resume (settled : Thrown + jsstring) (now : N)
    (st : AppState) : AppState :=
  let st' :=
    match settled with
    | inr aiResponseText =>
        setMessages
          (fun prev => prev ++ [mkChatMessage (toString (now + 1)) ai
                                              aiResponseText]) st
    | inl (Error message) => setError (Some message) st
    | inl NotAnError => setError (Some (lit "An unknown error occurred.")) st
    end in
  setUserInput [] (setIsLoading false st').

(** [handleSubmit], the callback of the last render: it was created with
    the [isLoading] and the [documents] of that render ([useCallback] with
    these two as dependencies) and reads those, whatever has been set
    since; its setters write to the current cells.  [now] is what
    [Date.now()] returns.  When [askAboutDocuments] throws before its
    [await], the [catch] and the [finally] run in the same turn. *)
Definition handleSubmit (query : jsstring) (now : N) (w : World) : World :=
  let st := ui w in
  if negb (truthy (trim query)) || isLoading (rendered w) then w
  else if (length (documents (rendered w)) =? 0)%nat then
    with_ui (setError (Some (lit "Please upload at least one document before asking a question.")) st) w
  else
    let newUserMessage := mkChatMessage (toString now) user query in
    let st1 :=
      setIsLoading true
        (setMessages (fun prev => prev ++ [newUserMessage])
           (setError None st)) in
    match askAboutDocuments (env w) query (documents (rendered w)) with
    | Throws e => with_ui (handleSubmit_resume (inl e) now st1) w
    | Awaits req =>
        mkWorld (env w) st1 (rendered w) (uploads w) (inflight w ++ [req])
                (sent w ++ [req])
    end.

(** The [j]-th pending network call settles. *)
Definition answerSettled (j : nat)
    (outcome : Thrown + GenerateContentResponse) (now : N) (w : World)
  : World :=
  match inflight w !! j with
  | None => w
  | Some _ =>
      mkWorld (env w)
              (handleSubmit_resume (askAboutDocuments_resume outcome) now
                                   (ui w))
              (rendered w) (uploads w) (delete j (inflight w)) (sent w)
  end.

(** [handleSuggestionClick], the function of the last render: it reads
    the [documents] of that render. *)
Definition handleSuggestionClick (suggestion : jsstring) (w : World)
  : World :=
  if (length (documents (rendered w)) =? 0)%nat
  then with_ui (setError (Some (lit "Please upload a document first.")) (ui w)) w
  else with_ui (setUserInput suggestion (ui w)) w.

(** The component renders again: the handlers and attributes from now on
    are those of the current state cells. *)
Definition render (w : World) : World :=
  mkWorld (env w) (ui w) (ui w) (uploads w) (inflight w) (sent w).

(** What can happen to the component: the four user actions of the
    rendered page, the two kinds of settlement the environment decides the
    moment and the order of, and a render.  Between two renders every
    handler that runs is a handler of the same render and reads the same
    captured values: two submissions handled before the component has
    rendered again both read the [isLoading] of before the first. *)
Inductive Event :=
| FilesSelected (selected : option (list File))
| DocumentRemoved (docName : jsstring)
| InputChanged (value : jsstring)
| SuggestionChosen (suggestion : jsstring)
| QuestionSubmitted (query : jsstring) (now : N)
| TaskSettled (b i : nat)
| AnswerSettled (j : nat) (outcome : Thrown + GenerateContentResponse)
                (now : N)
| Rendered.

Definition step (w : World) (e : Event) : World :=
  match e with
  | FilesSelected selected => handleFileChange selected w
  | DocumentRemoved docName => with_ui (removeDocument docName (ui w)) w
  | InputChanged value => with_ui (setUserInput value (ui w)) w
  | SuggestionChosen s => handleSuggestionClick s w
  | QuestionSubmitted query now => handleSubmit query now w
  | TaskSettled b i => taskSettled b i w
  | AnswerSettled j outcome now => answerSettled j outcome now w
  | Rendered => render w
  end.

Definition run (w : World) (events : list Event) : World :=
  fold_left step events w.

(** The component as first rendered. *)
Definition init (e : ProcessEnv) : World :=
  mkWorld e (mkState [] [] [] false None) (mkState [] [] [] false None)
          [] [] [].

(** A component that has just rendered the state cells [st], with no upload
    and no call pending. *)
Definition shown (e : ProcessEnv) (st : AppState) : World :=
  mkWorld e st st [] [] [].

End App.

Import App.

(** ** Vocabulary of the statements *)

(** What a file's task pushes to [newDocs]. *)
Definition pushed (file : File) : list DocumentFile :=
  match fileTask file with
  | inr (Some doc) => [doc]
  | _ => []
  end.

(** The files of a selection taken in the order in which their tasks end. *)
Definition in_order (fs : list File) (order : list nat) : list File :=
  omap (fun i => fs !! i) order.

(** A selection of files followed by the end of every task, in the order
    given. *)
Definition upload (fs : list File) (order : list nat) (w : World) : World :=
  run (handleFileChange (Some fs) w)
      (map (TaskSettled (length (uploads w))) order).

Definition read_error : jsstring :=
  lit "There was an error reading one or more files. Please ensure they are valid text or PDF files.".

(** What holds of a batch of the files [fs] at every moment: a promise is
    fulfilled only if its task succeeded, [Promise.all] is rejected as soon
    as a promise is, and fulfilled only if every promise is. *)
Definition batch_sound (fs : list File) (batch : Batch) : Prop :=
  files batch = fs
  /\ length (readPromises batch) = length fs
  /\ (forall i file, fs !! i = Some file ->
        readPromises batch !! i = Some fulfilled ->
        exists r, fileTask file = inr r)
  /\ (forall i, readPromises batch !! i = Some rejected -> all batch = rejected)
  /\ (all batch = fulfilled -> allFulfilled (readPromises batch) = true).

(** The names and texts of a document list, as they are laid out in it. *)
Definition labeled (documents : list DocumentFile) : list jsstring :=
  flat_map (fun doc => [name doc; content doc]) documents.

(** How many times a document occurs in a list. *)
Definition occurrences (doc : DocumentFile) (docs : list DocumentFile) : nat :=
  length (filter (fun d => d = doc) docs).

(** The ids of a transcript, in creation order. *)
Definition ids (transcript : list ChatMessage) : list jsstring :=
  map id transcript.

(** ** Sample inputs *)

Module Samples.

Definition doc_a := mkDocumentFile (lit "a.txt") (lit "A").
Definition doc_b := mkDocumentFile (lit "b.txt") (lit "B").
Definition doc_c := mkDocumentFile (lit "c.txt") (lit "C").

(** A PDF of two pages: the tokens [a], [b] on the first, [c] on the
    second. *)
Definition two_pages : PDFDocumentProxy :=
  mkPdf 2 (fun i =>
    match i with
    | 1%nat => inr (mkPage (inr [TextItem (lit "a"); TextItem (lit "b")]))
    | 2%nat => inr (mkPage (inr [TextItem (lit "c")]))
    | _ => inl (Error (lit "Invalid page request."))
    end).

Definition two_pages_pdf : File :=
  mkFile (lit "two.pdf") (lit "application/pdf") (inr two_pages)
         (inl NotAnError).

(** A PDF that pdf.js cannot open. *)
Definition corrupt_pdf : File :=
  mkFile (lit "bad.pdf") (lit "application/pdf")
         (inl (Error (lit "Invalid PDF structure."))) (inl NotAnError).

Definition text_file (file_name text : string) : File :=
  mkFile (lit file_name) (lit "text/plain")
         (inl (Error (lit "Invalid PDF structure."))) (inr (lit text)).

Definition with_key : ProcessEnv := mkEnv (Some (lit "key")).

(** One text file is uploaded and listed; a first question, sent when the
    clock reads 1000, is left pending. *)
Definition asked : list Event :=
  [ FilesSelected (Some [text_file "notes.txt" "The sky is blue."]);
    TaskSettled 0 0;
    Rendered;
    QuestionSubmitted (lit "What color is the sky?") 1000;
    Rendered ].

(** The pending question is answered when the clock reads 1200. *)
Definition answered : list Event :=
  asked ++ [ AnswerSettled 0 (inr (mkResponse (lit "Blue."))) 1200; Rendered ].

(** A second question is sent when the clock reads 1201. *)
Definition two_questions : list Event :=
  answered ++ [ QuestionSubmitted (lit "Why?") 1201 ].

(** The first question is sent twice before the component renders again. *)
Definition asked_twice : list Event :=
  [ FilesSelected (Some [text_file "notes.txt" "The sky is blue."]);
    TaskSettled 0 0;
    Rendered;
    QuestionSubmitted (lit "What color is the sky?") 1000;
    QuestionSubmitted (lit "What color is the sky?") 1001 ].

End Samples.

(** ** Vocabulary of the event system *)

(** The [b]-th batch of the world is a sound batch of the files [fs]. *)
Definition batch_at (fs : list File) (b : nat) (w : World) : Prop :=
  exists batch, uploads w !! b = Some batch /\ batch_sound fs batch.

(** The batch has been followed from the selection of its files on, with
    only its own tasks ending since: the state cells are those of the
    selection, [st0], until [Promise.all] settles and [st0] with the read
    error once it is rejected; the tasks listed in [ended] have ended. *)
Definition batch_followed (fs : list File) (b : nat) (st0 : AppState)
    (ended : list nat) (w : World) : Prop :=
  exists batch,
    uploads w !! b = Some batch
    /\ batch_sound fs batch
    /\ (all batch = pending -> ui w = st0)
    /\ (all batch = rejected -> ui w = onRejected st0)
    /\ (forall i, i ∈ ended -> (i < length fs)%nat ->
          readPromises batch !! i <> Some pending).

(** The settlement of a network call, as opposed to every other event. *)
Definition is_answer (ev : Event) : bool :=
  match ev with
  | AnswerSettled _ _ _ => true
  | _ => false
  end.

(** The state cells right after an accepted submission: the error slot
    cleared, the user message appended, the pending flag up. *)
Definition submitted (query : jsstring) (now : N) (st : AppState) : AppState :=
  setIsLoading true
    (setMessages (fun prev => prev ++ [mkChatMessage (toString now) user query])
       (setError None st)).

(** The component has rendered again before each submission is handled:
    every submission comes right after a render ([just_rendered] tells
    whether the list itself starts right after one).  This is how the
    events of a user reach the component, one per task, the updates of
    each being rendered before the next is dispatched. *)
Fixpoint paced (just_rendered : bool) (events : list Event) : Prop :=
  match events with
  | [] => True
  | Rendered :: rest => paced true rest
  | QuestionSubmitted _ _ :: rest => just_rendered = true /\ paced false rest
  | _ :: rest => paced false rest
  end.

(** Either no question is pending, or exactly one is and the flag is up. *)
Definition single_flight (w : World) : Prop :=
  (isLoading (ui w) = false /\ inflight w = [])
  \/ (isLoading (ui w) = true /\ exists req, inflight w = [req]).


(** ** Vocabulary of the further properties *)

#[global] Instance Sender_eq_dec : EqDecision Sender.
Proof. solve_decision. Defined.

(** How many messages of a transcript come from a sender. *)
Definition sent_by (s : Sender) (transcript : list ChatMessage) : nat :=
  length (filter (fun m => sender m = s) transcript).

#[global] Arguments sent_by : simpl never.

(** A request that [askAboutDocuments] composed for a question that is not
    blank over a document list that is not empty. *)
Definition composed (req : GenerateContentParameters) : Prop :=
  exists question documents,
    truthy (trim question) = true
    /\ documents <> []
    /\ req = mkRequest (lit "gemini-2.5-flash")
                       (userPrompt question documents) SYSTEM_INSTRUCTION.

(** The messages the code puts in the error slot by itself. *)
Definition fixed_messages : list jsstring :=
  [ read_error;
    lit "Please upload at least one document before asking a question.";
    lit "Please upload a document first.";
    lit "API_KEY environment variable not set";
    lit "Failed to get a response from the AI. Please check the console for details." ].

Definition error_is_fixed (st : AppState) : Prop :=
  error st = None \/ exists m, error st = Some m /\ m ∈ fixed_messages.

(** Every assistant message comes right after a user message. *)
Definition in_turn (transcript : list ChatMessage) : Prop :=
  forall i m, transcript !! i = Some m -> sender m = ai ->
    exists j q, i = S j /\ transcript !! j = Some q /\ sender q = user.

(** No document held, or pushed by a task and waiting for its batch, has an
    empty text. *)
Definition texts_not_empty (w : World) : Prop :=
  Forall (fun doc => content doc <> []) (documents (ui w))
  /\ Forall (fun batch => Forall (fun doc => content doc <> []) (newDocs batch))
            (uploads w).

(** While a question is pending, the transcript ends with a user message. *)
Definition question_is_last (w : World) : Prop :=
  isLoading (ui w) = true ->
  exists q, last (messages (ui w)) = Some q /\ sender q = user.

Definition turn_invariant (w : World) : Prop :=
  single_flight w /\ in_turn (messages (ui w)) /\ question_is_last w.

(** Calls and messages counted against each other. *)
Definition calls_accounted (w : World) : Prop :=
  (sent_by ai (messages (ui w)) + length (inflight w) <= length (sent w))%nat
  /\ (length (sent w) <= sent_by user (messages (ui w)))%nat
  /\ (missing (API_KEY (env w)) = false ->
      length (sent w) = sent_by user (messages (ui w))).

Definition calls_composed (w : World) : Prop :=
  Forall composed (sent w) /\ inflight w ⊆ sent w.

(** A batch of the files [fs] none of whose promises was rejected:
    [Promise.all] is fulfilled if every promise is, and pending otherwise. *)
Definition batch_clean (fs : list File) (batch : Batch) : Prop :=
  files batch = fs
  /\ length (readPromises batch) = length fs
  /\ all batch = if allFulfilled (readPromises batch) then fulfilled else pending.

(** The clock readings of the events that may create a message start at
    [from] or later, and each is at least two milliseconds after the one
    before. *)
Fixpoint spaced (from : N) (events : list Event) : Prop :=
  match events with
  | [] => True
  | QuestionSubmitted _ now :: rest => from <= now /\ spaced (now + 2) rest
  | AnswerSettled _ _ now :: rest => from <= now /\ spaced (now + 2) rest
  | _ :: rest => spaced from rest
  end.

(** The ids of the transcript render numbers that increase strictly and
    stay below [bound]. *)
Definition ids_below (bound : N) (transcript : list ChatMessage) : Prop :=
  exists values,
    ids transcript = map toString values
    /\ StronglySorted N.lt values
    /\ Forall (fun v => v < bound) values.

(** One document whose text continues with the delimiters of a block and
    the label of a second document. *)
Definition spliced (doc1 doc2 : DocumentFile) : DocumentFile :=
  mkDocumentFile (name doc1)
    (content doc1 ++ LF
     ++ lit "---" ++ LF
     ++ lit "  " ++ LF
     ++ LF ++ lit "---" ++ LF
     ++ lit "Document: " ++ name doc2 ++ LF
     ++ lit "Content:" ++ LF
     ++ content doc2).

(** ** The rendered controls

    The attributes and handlers that the component's markup computes at a
    render, from the state cells of that render.  A disabled control
    receives no event, and the suggestions exist only while the welcome
    screen is rendered. *)

Module Controls.

(** The suggestions of the welcome screen. *)
Definition suggestions : list jsstring :=
  [ lit "Summarize this document.";
    lit "Generate 3 question-answer pairs from this file.";
    lit "Explain the main terms used in these documents.";
    lit "Compare the key points of the uploaded files." ].

(** [disabled={isLoading || documents.length === 0}] of the textarea. *)
Definition textareaDisabled (st : AppState) : bool :=
  isLoading st || (length (documents st) =? 0)%nat.

(** [disabled={!userInput.trim() || isLoading || documents.length === 0}]
    of the send button. *)
Definition sendDisabled (st : AppState) : bool :=
  negb (truthy (trim (userInput st))) || isLoading st
  || (length (documents st) =? 0)%nat.

(** [placeholder] of the textarea. *)
Definition placeholder (st : AppState) : jsstring :=
  if (0 <? length (documents st))%nat
  then lit "Ask a question about your documents..."
  else lit "Upload a document to start chatting".

(** [messages.length === 0 ? <WelcomeScreen .. /> : ..] *)
Definition welcomeShown (st : AppState) : bool :=
  (length (messages st) =? 0)%nat.

(** [onKeyDown] of the textarea: Enter without Shift submits the input of
    the render. *)
Definition onKeyDown (key : jsstring) (shiftKey : bool) (now : N) (w : World)
  : World :=
  if textareaDisabled (rendered w) then w
  else if bool_decide (key = lit "Enter") && negb shiftKey
       then handleSubmit (userInput (rendered w)) now w
       else w.

(** [onClick] of the send button. *)
Definition onSendClick (now : N) (w : World) : World :=
  if sendDisabled (rendered w) then w
  else handleSubmit (userInput (rendered w)) now w.

(** [onClick] of the [k]-th suggestion. *)
Definition onSuggestionClick (k : nat) (w : World) : World :=
  if welcomeShown (rendered w)
  then match suggestions !! k with
       | Some s => handleSuggestionClick s w
       | None => w
       end
  else w.

End Controls.

Import Controls.

(** * Properties *)

(** ** Strings *)

Lemma join_cons_app sep p rest tail :
  join sep (p :: rest) ++ tail
  = p ++ match rest with
         | [] => tail
         | _ :: _ => sep ++ join sep rest ++ tail
         end.
Proof.
  destruct rest as [|q rest]; [reflexivity|].
  cbn [join]. by rewrite <- !app_assoc.
Qed.

Lemma occur_in_order_prepend pieces before s :
  occur_in_order pieces s -> occur_in_order pieces (before ++ s).
Proof.
  destruct pieces as [|p ps]; [done|].
  intros (b & a & -> & Hps). exists (before ++ b), a.
  by rewrite <- app_assoc.
Qed.

Lemma occur_in_order_here p ps after :
  occur_in_order ps after -> occur_in_order (p :: ps) (p ++ after).
Proof. intros H. by exists [], after. Qed.

(** ** Prompt composition *)

Lemma documentBlock_in_order doc pieces s :
  occur_in_order pieces s ->
  occur_in_order (name doc :: content doc :: pieces) (documentBlock doc ++ s).
Proof.
  intros Hs. unfold documentBlock. rewrite <- !app_assoc.
  do 4 apply occur_in_order_prepend. apply occur_in_order_here.
  do 3 apply occur_in_order_prepend. apply occur_in_order_here.
  by do 4 apply occur_in_order_prepend.
Qed.

Lemma documentsContext_in_order documents pieces tail :
  occur_in_order pieces tail ->
  occur_in_order (labeled documents ++ pieces)
                 (documentsContext documents ++ tail).
Proof.
  unfold documentsContext.
  induction documents as [|doc rest IH]; intros Htail; [done|].
  cbn [map]. rewrite join_cons_app.
  cbn [labeled flat_map app]. apply documentBlock_in_order.
  destruct rest as [|doc' rest']; [done|].
  apply occur_in_order_prepend, IH, Htail.
Qed.

(** ** The Answer Service client *)

Example userPrompt_notes :
  userPrompt (lit "What color is the sky?")
             [mkDocumentFile (lit "notes.txt") (lit "The sky is blue.")]
  = LF ++ lit "CONTEXT FROM DOCUMENTS:" ++ LF
    ++ LF ++ lit "---" ++ LF
    ++ lit "Document: notes.txt" ++ LF
    ++ lit "Content:" ++ LF
    ++ lit "The sky is blue." ++ LF
    ++ lit "---" ++ LF
    ++ lit "  " ++ LF
    ++ LF
    ++ lit "Based on the document(s) provided, answer the following question." ++ LF
    ++ LF
    ++ lit "USER QUESTION:" ++ LF
    ++ lit "What color is the sky?" ++ LF.
Proof. reflexivity. Qed.

(** C6. For every question and every document list, the composed prompt
    contains, as substrings one after the other, the name and then the full
    text of each document, in document order, and after all of them the
    literal question. *)
Theorem userPrompt_contains_documents_then_question
    (question : jsstring) (documents : list DocumentFile) :
  occur_in_order (labeled documents ++ [question])
                 (userPrompt question documents).
Proof.
  unfold userPrompt.
  do 3 apply occur_in_order_prepend.
  apply documentsContext_in_order.
  do 7 apply occur_in_order_prepend.
  by apply occur_in_order_here.
Qed.

(** The composed prompt is the one that goes out: with a credential, the
    call issued carries [userPrompt] and the fixed system instruction. *)
Lemma askAboutDocuments_request env question documents :
  missing (API_KEY env) = false ->
  askAboutDocuments env question documents
  = Awaits (mkRequest (lit "gemini-2.5-flash")
                      (userPrompt question documents) SYSTEM_INSTRUCTION).
Proof. intros H. unfold askAboutDocuments. by rewrite H. Qed.

(** C7. For every call of the client without a configured credential
    (undefined or empty), the call fails at once with the configuration
    error and issues no network call; a submission in that situation adds
    nothing to the calls sent or pending. *)
Theorem askAboutDocuments_without_credential
    (env0 : ProcessEnv) (question : jsstring) (documents : list DocumentFile) :
  missing (API_KEY env0) = true ->
  askAboutDocuments env0 question documents
  = Throws (Error (lit "API_KEY environment variable not set"))
  /\ network_calls (askAboutDocuments env0 question documents) = []
  /\ forall (w : World) (now : N),
       env w = env0 ->
       sent (handleSubmit question now w) = sent w
       /\ inflight (handleSubmit question now w) = inflight w.
Proof.
  intros Hmissing.
  assert (Hask : askAboutDocuments env0 question documents
                 = Throws (Error (lit "API_KEY environment variable not set"))).
  { unfold askAboutDocuments. by rewrite Hmissing. }
  split; [exact Hask|]. split; [by rewrite Hask|].
  intros w now Henv. unfold handleSubmit.
  destruct (negb (truthy (trim question)) || isLoading (rendered w)); [done|].
  destruct (length (App.documents (rendered w)) =? 0)%nat; [done|].
  unfold askAboutDocuments. rewrite Henv, Hmissing. done.
Qed.

Lemma askAboutDocuments_without_credential_witness :
  askAboutDocuments (mkEnv None) (lit "Why?")
                    [mkDocumentFile (lit "a.txt") (lit "A")]
  = Throws (Error (lit "API_KEY environment variable not set"))
  /\ sent (handleSubmit (lit "Why?") 1000
             (shown (mkEnv None)
                (mkState [mkDocumentFile (lit "a.txt") (lit "A")] [] [] false
                         None))) = [].
Proof.
  pose proof (askAboutDocuments_without_credential (mkEnv None) (lit "Why?")
                [mkDocumentFile (lit "a.txt") (lit "A")] eq_refl)
    as (Hthrows & _ & Hsubmit).
  split; [exact Hthrows|].
  exact (proj1 (Hsubmit (shown (mkEnv None)
                (mkState [mkDocumentFile (lit "a.txt") (lit "A")] [] [] false
                         None)) 1000 eq_refl)).
Defined.

(** ** Removal *)

Example removeDocument_middle :
  documents (removeDocument (lit "b.txt")
               (mkState [Samples.doc_a; Samples.doc_b; Samples.doc_c] [] []
                        false None))
  = [Samples.doc_a; Samples.doc_c].
Proof. reflexivity. Qed.

(** C9. For every DocumentSet and every name, removing by name leaves no
    document of that name (however many there were), keeps the remaining
    documents in their relative order, keeps every document of another name
    as many times as it was there, and touches no other state cell. *)
Theorem removeDocument_removes_every_match
    (docName : jsstring) (st : AppState) :
  let docs' := documents (removeDocument docName st) in
  Forall (fun doc => name doc <> docName) docs'
  /\ sublist docs' (documents st)
  /\ (forall doc, name doc <> docName ->
        occurrences doc docs' = occurrences doc (documents st))
  /\ messages (removeDocument docName st) = messages st
  /\ userInput (removeDocument docName st) = userInput st
  /\ isLoading (removeDocument docName st) = isLoading st
  /\ error (removeDocument docName st) = error st.
Proof.
  cbn. repeat split.
  - apply Forall_forall. intros doc Hin.
    by apply list_elem_of_filter in Hin as [Hname _].
  - apply sublist_filter.
  - intros doc Hname. unfold occurrences. f_equal.
    rewrite list_filter_filter. apply list_filter_iff.
    intros d. split; [tauto|]. intros ->. done.
Qed.

Lemma removeDocument_removes_every_match_witness :
  occurrences Samples.doc_a
    (documents (removeDocument (lit "b.txt")
       (mkState [Samples.doc_b; Samples.doc_a; Samples.doc_b] [] [] false
                None)))
  = occurrences Samples.doc_a [Samples.doc_b; Samples.doc_a; Samples.doc_b].
Proof.
  apply (removeDocument_removes_every_match (lit "b.txt")
           (mkState [Samples.doc_b; Samples.doc_a; Samples.doc_b] [] [] false
                    None)).
  vm_compute. discriminate.
Defined.

(** ** PDF extraction *)

Lemma join_terminated sep (parts : list jsstring) :
  parts <> [] ->
  join sep parts ++ sep = concat (map (fun p => p ++ sep) parts).
Proof.
  induction parts as [|p rest IH]; [done|]. intros _.
  destruct rest as [|q rest].
  - cbn. by rewrite app_nil_r.
  - change (join sep (p :: q :: rest)) with (p ++ sep ++ join sep (q :: rest)).
    specialize (IH ltac:(done)). cbn [map concat] in *.
    rewrite <- IH. by rewrite <- !app_assoc.
Qed.

Lemma occur_in_order_terminated sep (parts : list jsstring) :
  occur_in_order parts (concat (map (fun p => p ++ sep) parts)).
Proof.
  induction parts as [|p rest IH]; [done|].
  cbn [map concat]. rewrite <- app_assoc.
  by apply occur_in_order_here, occur_in_order_prepend.
Qed.

Lemma readPages_all_pages pdf (pages : list (list TextContentItem)) i fullText :
  (forall k items, pages !! k = Some items ->
     exists page, getPage pdf (i + k)%nat = inr page
                  /\ getTextContent page = inr items) ->
  readPages pdf (length pages) i fullText
  = inr (fullText ++ concat (map (fun items => pageText items ++ LF ++ LF) pages)).
Proof.
  revert i fullText. induction pages as [|items rest IH]; intros i fullText Hpages.
  - cbn. by rewrite app_nil_r.
  - destruct (Hpages 0%nat items eq_refl) as (page & Hpage & Hitems).
    rewrite Nat.add_0_r in Hpage.
    cbn [length readPages]. rewrite Hpage. cbn [bind_thrown].
    rewrite Hitems. cbn [bind_thrown].
    rewrite IH.
    + cbn [map concat]. by rewrite <- !app_assoc.
    + intros k its Hk. replace (S i + k)%nat with (i + S k)%nat by lia.
      by apply Hpages.
Qed.

Example readContent_two_pages :
  readContent Samples.two_pages_pdf
  = inr (lit "a b" ++ LF ++ LF ++ lit "c" ++ LF ++ LF).
Proof. reflexivity. Qed.

(** C4, as the specification states it, fails: the text of the last page is
    followed by two newlines as well, so the result is not the page texts
    joined by two newlines. *)
Lemma readContent_pdf_is_not_joined_pages :
  getDocument Samples.two_pages_pdf = inr Samples.two_pages
  /\ numPages Samples.two_pages = 2%nat
  /\ readContent Samples.two_pages_pdf
     <> inr (join (LF ++ LF) [join SP [lit "a"; lit "b"]; join SP [lit "c"]]).
Proof. repeat split. vm_compute. discriminate. Qed.

(** C4, amended. For every PDF file with N >= 1 pages whose pages yield
    their items, extraction visits the pages in the order 1..N, joins the
    strings of a page's items with one space and appends two newlines after
    every page, the last included: the content is the page texts joined by
    two newlines followed by two more newlines, that is N terminated
    segments in page order, and the file yields a document with that
    content. *)
Theorem readContent_pdf_terminated_pages
    (file : File) (pdf : PDFDocumentProxy)
    (pages : list (list TextContentItem)) :
  file_type file = lit "application/pdf" ->
  getDocument file = inr pdf ->
  length pages = numPages pdf ->
  (1 <= numPages pdf)%nat ->
  (forall k items, pages !! k = Some items ->
     exists page, getPage pdf (S k) = inr page
                  /\ getTextContent page = inr items) ->
  let texts := map (fun items => join SP (map itemStr items)) pages in
  let extracted := join (LF ++ LF) texts ++ LF ++ LF in
  readContent file = inr extracted
  /\ extracted = concat (map (fun t => t ++ LF ++ LF) texts)
  /\ length texts = numPages pdf
  /\ occur_in_order texts extracted
  /\ fileTask file = inr (Some (mkDocumentFile (file_name file) extracted)).
Proof.
  intros Htype Hdoc Hlen Hpos Hpages texts extracted.
  assert (Hne : texts <> []).
  { unfold texts. destruct pages; [cbn in Hlen; lia | done]. }
  assert (Hterm : extracted = concat (map (fun t => t ++ LF ++ LF) texts)).
  { unfold extracted. by apply (join_terminated (LF ++ LF)). }
  assert (Hread : readContent file = inr extracted).
  { unfold readContent. rewrite decide_True by done.
    rewrite Hdoc. cbn [bind_thrown]. rewrite <- Hlen.
    rewrite (readPages_all_pages pdf pages 1 []) by exact Hpages.
    rewrite Hterm. unfold texts. rewrite map_map. done. }
  repeat split; try done.
  - unfold texts. by rewrite length_map.
  - rewrite Hterm. apply (occur_in_order_terminated (LF ++ LF)).
  - unfold fileTask. rewrite Hread. cbn [bind_thrown].
    replace (truthy extracted) with true; [done|].
    unfold extracted. by destruct (join (LF ++ LF) texts).
Qed.

Lemma readContent_pdf_terminated_pages_witness :
  readContent Samples.two_pages_pdf
  = inr (join (LF ++ LF) [join SP [lit "a"; lit "b"]; join SP [lit "c"]]
         ++ LF ++ LF).
Proof.
  refine (proj1 (readContent_pdf_terminated_pages Samples.two_pages_pdf
            Samples.two_pages
            [[TextItem (lit "a"); TextItem (lit "b")]; [TextItem (lit "c")]]
            eq_refl eq_refl eq_refl _ _)).
  - cbn. lia.
  - intros [|[|k]] items Hk; inversion Hk; subst; eexists; split; reflexivity.
Defined.

(** ** Submission *)

Lemma trimStart_blank (s : jsstring) :
  Forall (fun c => is_trimmed c = true) s -> trimStart s = [].
Proof.
  induction 1 as [|c s Hc _ IH]; [done|]. cbn. by rewrite Hc.
Qed.

Lemma trimStart_nil_blank (s : jsstring) :
  trimStart s = [] -> Forall (fun c => is_trimmed c = true) s.
Proof.
  induction s as [|c s IH]; [done|]. cbn.
  destruct (is_trimmed c) eqn:Hc; [|done]. intros H. constructor; auto.
Qed.

Lemma trimStart_head (s : jsstring) c rest :
  trimStart s = c :: rest -> is_trimmed c = false.
Proof.
  induction s as [|d s IH]; [done|]. cbn.
  destruct (is_trimmed d) eqn:Hd; [done|]. by intros [= -> _].
Qed.

(** [trim] leaves nothing exactly when the string is empty or made of white
    space and line terminators only. *)
Lemma trim_blank (s : jsstring) :
  truthy (trim s) = false <-> Forall (fun c => is_trimmed c = true) s.
Proof.
  split.
  - intros H. apply trimStart_nil_blank.
    destruct (trimStart s) as [|c rest] eqn:Hs; [done|]. exfalso.
    unfold trim, trimEnd in H. rewrite Hs in H.
    destruct (trimStart (rev (c :: rest))) as [|d rest'] eqn:Hr.
    + apply trimStart_nil_blank in Hr.
      apply trimStart_head in Hs.
      rewrite Forall_forall in Hr.
      assert (is_trimmed c = true); [|congruence].
      apply Hr, list_elem_of_In. apply -> in_rev. by left.
    + cbn [rev] in H. by destruct (rev rest').
  - intros H. unfold trim. by rewrite (trimStart_blank s H).
Qed.

(** C3, as the specification states it, fails: a question made of white
    space only is dropped without any message in the error slot. *)
Lemma blank_question_surfaces_no_error :
  let w := shown (mkEnv (Some (lit "key")))
                 (mkState [Samples.doc_a] [] (lit "  ") false None) in
  Forall (fun c => is_trimmed c = true) (lit "  ")
  /\ error (ui (handleSubmit (lit "  ") 1000 w)) = None.
Proof. split; [by repeat constructor | reflexivity]. Qed.

(** C3, amended. A submission whose text is empty or white space only is
    dropped silently: nothing changes, the error slot included.  A
    submission made while the DocumentSet is empty (the one the handler
    reads, that of its render) issues and enqueues no call and leaves the
    transcript and the pending flag as they were; when its text is not
    blank and no question is pending, the error slot receives the message
    asking for a document. *)
Theorem handleSubmit_rejects_before_any_work
    (query : jsstring) (now : N) (w : World) :
  let w' := handleSubmit query now w in
  (Forall (fun c => is_trimmed c = true) query -> w' = w)
  /\ (documents (rendered w) = [] ->
      sent w' = sent w
      /\ inflight w' = inflight w
      /\ messages (ui w') = messages (ui w)
      /\ isLoading (ui w') = isLoading (ui w)
      /\ (truthy (trim query) = true -> isLoading (rendered w) = false ->
          error (ui w')
          = Some (lit "Please upload at least one document before asking a question."))).
Proof.
  cbv zeta. split.
  - intros Hblank. apply trim_blank in Hblank.
    unfold handleSubmit. by rewrite Hblank.
  - intros Hdocs. unfold handleSubmit. rewrite Hdocs. cbn [length Nat.eqb].
    destruct (truthy (trim query)), (isLoading (rendered w)) eqn:Hload; cbn;
      repeat split; intros; congruence.
Qed.

Lemma handleSubmit_rejects_before_any_work_witness :
  handleSubmit (lit "  ") 1000 (init (mkEnv None)) = init (mkEnv None)
  /\ error (ui (handleSubmit (lit "Why?") 1000 (init (mkEnv None))))
     = Some (lit "Please upload at least one document before asking a question.").
Proof.
  split.
  - apply (handleSubmit_rejects_before_any_work (lit "  ") 1000
             (init (mkEnv None))).
    by repeat constructor.
  - apply (handleSubmit_rejects_before_any_work (lit "Why?") 1000
             (init (mkEnv None))); reflexivity.
Defined.

(** *** What the upload events leave alone *)

Lemma taskSettled_frame b i w :
  env (taskSettled b i w) = env w
  /\ inflight (taskSettled b i w) = inflight w
  /\ sent (taskSettled b i w) = sent w
  /\ messages (ui (taskSettled b i w)) = messages (ui w)
  /\ isLoading (ui (taskSettled b i w)) = isLoading (ui w)
  /\ userInput (ui (taskSettled b i w)) = userInput (ui w)
  /\ rendered (taskSettled b i w) = rendered w.
Proof. unfold taskSettled, react. by repeat case_match. Qed.

Lemma handleFileChange_frame selected w :
  env (handleFileChange selected w) = env w
  /\ inflight (handleFileChange selected w) = inflight w
  /\ sent (handleFileChange selected w) = sent w
  /\ messages (ui (handleFileChange selected w)) = messages (ui w)
  /\ isLoading (ui (handleFileChange selected w)) = isLoading (ui w)
  /\ userInput (ui (handleFileChange selected w)) = userInput (ui w)
  /\ rendered (handleFileChange selected w) = rendered w.
Proof. unfold handleFileChange. by repeat case_match. Qed.

Lemma handleSuggestionClick_frame s w :
  messages (ui (handleSuggestionClick s w)) = messages (ui w)
  /\ isLoading (ui (handleSuggestionClick s w)) = isLoading (ui w)
  /\ documents (ui (handleSuggestionClick s w)) = documents (ui w)
  /\ env (handleSuggestionClick s w) = env w
  /\ inflight (handleSuggestionClick s w) = inflight w
  /\ sent (handleSuggestionClick s w) = sent w
  /\ uploads (handleSuggestionClick s w) = uploads w
  /\ rendered (handleSuggestionClick s w) = rendered w.
Proof. unfold handleSuggestionClick. by case_match. Qed.

(** A handler of a render in which the pending flag is up does nothing. *)
Lemma handleSubmit_loading query now w :
  isLoading (rendered w) = true -> handleSubmit query now w = w.
Proof. intros H. unfold handleSubmit. rewrite H. by rewrite orb_true_r. Qed.

(** While a question is pending, every event other than the settlement of
    its call leaves the transcript, the flag and the calls as they are,
    provided that a submission is handled by a render that shows the flag. *)
Lemma step_while_pending w ev req :
  isLoading (ui w) = true -> inflight w = [req] -> is_answer ev = false ->
  (forall query now, ev = QuestionSubmitted query now ->
     isLoading (rendered w) = true) ->
  env (step w ev) = env w
  /\ inflight (step w ev) = [req]
  /\ sent (step w ev) = sent w
  /\ messages (ui (step w ev)) = messages (ui w)
  /\ isLoading (ui (step w ev)) = true.
Proof.
  intros Hload Hfl Hev Hseen. destruct ev; try discriminate; cbn [step].
  - destruct (handleFileChange_frame selected w) as (-> & -> & -> & -> & -> & _).
    done.
  - done.
  - done.
  - destruct (handleSuggestionClick_frame suggestion w)
      as (-> & -> & _ & -> & -> & -> & _). done.
  - rewrite handleSubmit_loading by eauto. done.
  - destruct (taskSettled_frame b i w) as (-> & -> & -> & -> & -> & _). done.
  - done.
Qed.

Lemma run_while_pending events : forall w req just_rendered,
  isLoading (ui w) = true -> inflight w = [req] ->
  Forall (fun ev => is_answer ev = false) events ->
  paced just_rendered events ->
  (just_rendered = true -> isLoading (rendered w) = true) ->
  env (run w events) = env w
  /\ inflight (run w events) = [req]
  /\ sent (run w events) = sent w
  /\ messages (ui (run w events)) = messages (ui w)
  /\ isLoading (ui (run w events)) = true.
Proof.
  induction events as [|ev events IH];
    intros w req just_rendered Hload Hfl Hevs Hpaced Hseen; [done|].
  apply Forall_cons in Hevs as [Hev Hevs].
  destruct (step_while_pending w ev req Hload Hfl Hev)
    as (He & Hf & Hs & Hm & Hl).
  { intros query now ->. cbn in Hpaced. apply Hseen, Hpaced. }
  cbn [run fold_left]. fold (run (step w ev) events).
  destruct (IH (step w ev) req
              (match ev with Rendered => true | _ => false end) Hl Hf Hevs)
    as (-> & -> & -> & -> & ->).
  - destruct ev; cbn in Hpaced |- *; tauto.
  - destruct ev; try discriminate. intros _. exact Hload.
  - by rewrite He, Hs, Hm.
Qed.

Lemma step_single_flight w ev :
  single_flight w ->
  (forall query now, ev = QuestionSubmitted query now ->
     isLoading (rendered w) = isLoading (ui w)) ->
  single_flight (step w ev).
Proof.
  unfold single_flight. intros Hw Hseen. destruct ev; cbn [step].
  - by destruct (handleFileChange_frame selected w) as (_ & -> & _ & _ & -> & _).
  - done.
  - done.
  - by destruct (handleSuggestionClick_frame suggestion w)
      as (_ & -> & _ & _ & -> & _).
  - unfold handleSubmit.
    destruct (negb (truthy (trim query)) || isLoading (rendered w)) eqn:Hguard;
      [done|].
    apply orb_false_elim in Hguard as [_ Hload].
    rewrite (Hseen query now eq_refl) in Hload.
    destruct Hw as [[_ Hfl]|[Hl _]]; [|congruence].
    destruct (length (documents (rendered w)) =? 0)%nat; [by left|].
    destruct (askAboutDocuments _ _ _) as [[msg|]|req]; cbn.
    + by left.
    + by left.
    + right. rewrite Hfl. eauto.
  - by destruct (taskSettled_frame b i w) as (_ & -> & _ & _ & -> & _).
  - unfold answerSettled. destruct (inflight w !! j) eqn:Hj; [|done].
    left. cbn. split.
    + unfold handleSubmit_resume. by repeat case_match.
    + destruct Hw as [[_ Hfl]|[_ [req Hfl]]]; rewrite Hfl in *; [done|].
      by destruct j.
  - done.
Qed.





(** *** Failure of the answer service *)

Lemma handleSubmit_accepted query now w :
  truthy (trim query) = true -> isLoading (rendered w) = false ->
  documents (rendered w) <> [] ->
  handleSubmit query now w
  = match askAboutDocuments (env w) query (documents (rendered w)) with
    | Throws e =>
        with_ui (handleSubmit_resume (inl e) now (submitted query now (ui w))) w
    | Awaits req =>
        mkWorld (env w) (submitted query now (ui w)) (rendered w) (uploads w)
                (inflight w ++ [req]) (sent w ++ [req])
    end.
Proof.
  intros Hq Hl Hdocs. unfold handleSubmit. rewrite Hq, Hl. cbn [negb orb].
  destruct (documents (rendered w)); done.
Qed.

(** C10. For every accepted submission whose call to the answer service
    fails, whether at once for want of a credential or later when the
    pending call is rejected (other events may happen in between, a
    submission among them once the component has rendered), the user
    message appended at submission is still the last of the transcript and
    no assistant message follows it, the error slot holds the message of
    the error thrown by the service, the settlement leaves the DocumentSet
    as it found it, and the pending flag is down with nothing in flight, so
    that once the component has rendered the next non-blank submission is
    accepted and issues its call. *)
Theorem failed_answer_keeps_question
    (w : World) (query : jsstring) (now now' : N) (events : list Event)
    (thrown : Thrown) :
  truthy (trim query) = true ->
  isLoading (rendered w) = false ->
  inflight w = [] ->
  documents (rendered w) <> [] ->
  let question := mkChatMessage (toString now) user query in
  let w1 := step w (QuestionSubmitted query now) in
  (missing (API_KEY (env w)) = true ->
     messages (ui w1) = messages (ui w) ++ [question]
     /\ error (ui w1) = Some (lit "API_KEY environment variable not set")
     /\ documents (ui w1) = documents (ui w)
     /\ isLoading (ui w1) = false
     /\ inflight w1 = []
     /\ sent w1 = sent w)
  /\ (missing (API_KEY (env w)) = false ->
      Forall (fun ev => is_answer ev = false) events ->
      paced false events ->
      let w2 := run w1 events in
      let w3 := step w2 (AnswerSettled 0 (inl thrown) now') in
      messages (ui w3) = messages (ui w) ++ [question]
      /\ error (ui w3)
         = Some (lit "Failed to get a response from the AI. Please check the console for details.")
      /\ documents (ui w3) = documents (ui w2)
      /\ isLoading (ui w3) = false
      /\ inflight w3 = []
      /\ forall query' now'',
           truthy (trim query') = true -> documents (ui w3) <> [] ->
           let w4 := run w3 [Rendered; QuestionSubmitted query' now''] in
           messages (ui w4)
           = messages (ui w3) ++ [mkChatMessage (toString now'') user query']
           /\ sent w4
              = sent w3 ++ [mkRequest (lit "gemini-2.5-flash")
                              (userPrompt query' (documents (ui w3)))
                              SYSTEM_INSTRUCTION]).
Proof.
  intros Hq Hl Hfl Hdocs question w1.
  pose proof (handleSubmit_accepted query now w Hq Hl Hdocs) as Hw1.
  change (handleSubmit query now w) with w1 in Hw1.
  unfold askAboutDocuments, submitted in Hw1.
  split; intros Hkey; rewrite Hkey, ?Hfl in Hw1; cbn [app] in Hw1.
  - rewrite Hw1. cbn. by repeat split.
  - intros Hevs Hpaced w2 w3.
    set (req := mkRequest _ _ _) in Hw1.
    destruct (run_while_pending events w1 req false)
      as (Henv & Hfl2 & _ & Hmsg & _); [by rewrite Hw1..|exact Hevs|done|done|].
    fold w2 in Henv, Hfl2, Hmsg. rewrite Hw1 in Henv, Hmsg.
    cbn in Henv, Hmsg.
    assert (Hw3 : w3 = mkWorld (env w2)
              (handleSubmit_resume (askAboutDocuments_resume (inl thrown)) now'
                 (ui w2)) (rendered w2) (uploads w2) [] (sent w2)).
    { unfold w3. cbn [step]. unfold answerSettled. by rewrite Hfl2. }
    rewrite Hw3. cbn. rewrite Hmsg. do 5 (split; [done|]).
    intros query' now'' Hq' Hdocs'.
    rewrite handleSubmit_accepted by done.
    cbn. unfold askAboutDocuments. cbn. rewrite Henv, Hkey.
    unfold submitted. cbn. by rewrite Hmsg.
Qed.

Lemma failed_answer_keeps_question_witness :
  let w := shown (mkEnv (Some (lit "key")))
                 (mkState [Samples.doc_a] [] (lit "Why?") false None) in
  messages (ui (run w [QuestionSubmitted (lit "Why?") 1000;
                       DocumentRemoved (lit "a.txt");
                       AnswerSettled 0 (inl NotAnError) 1200]))
  = [mkChatMessage (lit "1000") user (lit "Why?")].
Proof.
  intros w.
  refine (proj1 (proj2 (failed_answer_keeps_question w (lit "Why?") 1000 1200
            [DocumentRemoved (lit "a.txt")] NotAnError eq_refl eq_refl eq_refl
            _) eq_refl _ _)).
  - discriminate.
  - by repeat constructor.
  - exact I.
Defined.

(** ** Message ids *)

Example toString_1201 : toString 1201 = lit "1201".
Proof. reflexivity. Qed.

Example toString_0 : toString 0 = lit "0".
Proof. reflexivity. Qed.

(** The end-to-end scenario: one file, one question, one answer. *)
Example one_question_answered :
  let w := run (init Samples.with_key) Samples.answered in
  documents (ui w) = [mkDocumentFile (lit "notes.txt") (lit "The sky is blue.")]
  /\ map sender (messages (ui w)) = [user; ai]
  /\ map text (messages (ui w)) = [lit "What color is the sky?"; lit "Blue."]
  /\ sent w = [mkRequest (lit "gemini-2.5-flash")
                 (userPrompt (lit "What color is the sky?")
                    [mkDocumentFile (lit "notes.txt") (lit "The sky is blue.")])
                 SYSTEM_INSTRUCTION]
  /\ inflight w = []
  /\ isLoading (ui w) = false.
Proof. vm_compute. repeat split. Qed.

(** C8 does not hold of the code: an id is the clock's reading at creation
    (plus one for an assistant message), so the assistant message created
    when the clock reads 1200 and the user message created when it reads
    1201 carry the same id, and the transcript's ids are not distinct. *)
Theorem message_ids_collide :
  let transcript := messages (ui (run (init Samples.with_key)
                                      Samples.two_questions)) in
  ids transcript = [lit "1000"; lit "1201"; lit "1201"]
  /\ map sender transcript = [user; ai; user]
  /\ ~ NoDup (ids transcript).
Proof.
  cbv zeta.
  assert (H : ids (messages (ui (run (init Samples.with_key)
                                     Samples.two_questions)))
              = [lit "1000"; lit "1201"; lit "1201"])
    by (vm_compute; reflexivity).
  split; [exact H|]. split; [vm_compute; reflexivity|].
  rewrite H. intros Hnd. apply NoDup_cons in Hnd as [_ Hnd].
  apply NoDup_cons in Hnd as [Hnotin _]. apply Hnotin. by left.
Qed.

(** Nor are ids increasing: with the clock standing still over a whole
    exchange, the next user message's id is below the assistant's. *)
Example message_ids_not_increasing :
  ids (messages (ui (run (init Samples.with_key)
         [ FilesSelected (Some [Samples.text_file "notes.txt" "The sky is blue."]);
           TaskSettled 0 0;
           Rendered;
           QuestionSubmitted (lit "What color is the sky?") 1000;
           AnswerSettled 0 (inr (mkResponse (lit "Blue."))) 1000;
           Rendered;
           QuestionSubmitted (lit "Why?") 1000 ])))
  = [toString 1000; toString 1001; toString 1000].
Proof. vm_compute. reflexivity. Qed.

(** ** Upload batches *)

Lemma allFulfilled_lookup (ps : list PromiseState) :
  allFulfilled ps = true <-> forall i p, ps !! i = Some p -> p = fulfilled.
Proof.
  unfold allFulfilled. induction ps as [|q ps IH]; cbn [forallb].
  - split; [by intros _ i p | done].
  - rewrite andb_true_iff, bool_decide_eq_true, IH. split.
    + intros [-> H] [|i] p; cbn; [congruence | apply H].
    + intros H. split; [exact (H 0%nat q eq_refl)|].
      intros i p. apply (H (S i)).
Qed.

Lemma rejectTask_sound fs batch i file err :
  batch_sound fs batch ->
  fs !! i = Some file -> fileTask file = inl err ->
  readPromises batch !! i = Some pending ->
  batch_sound fs (rejectTask i batch).
Proof.
  intros (Hfiles & Hlen & Hful & Hrej & Hall) Hfile Htask Hi.
  assert (Hlt : (i < length (readPromises batch))%nat)
    by (by eapply lookup_lt_Some).
  assert (Hnot : all batch <> fulfilled).
  { intros H. apply Hall in H. rewrite allFulfilled_lookup in H.
    by specialize (H i pending Hi). }
  unfold rejectTask, batch_sound. cbn. repeat split.
  - done.
  - by rewrite length_insert.
  - intros j f Hj Hpj. destruct (decide (i = j)) as [->|Hne].
    + rewrite list_lookup_insert_eq in Hpj by done. discriminate.
    + rewrite list_lookup_insert_ne in Hpj by done. eauto.
  - intros j Hpj. destruct (decide (i = j)) as [->|Hne].
    + by destruct (all batch).
    + rewrite list_lookup_insert_ne in Hpj by done.
      by rewrite (Hrej j Hpj).
  - by destruct (all batch).
Qed.

Lemma resolveTask_sound fs batch i file r :
  batch_sound fs batch ->
  fs !! i = Some file -> fileTask file = inr r ->
  readPromises batch !! i = Some pending ->
  batch_sound fs (resolveTask i r batch).
Proof.
  intros (Hfiles & Hlen & Hful & Hrej & Hall) Hfile Htask Hi.
  assert (Hlt : (i < length (readPromises batch))%nat)
    by (by eapply lookup_lt_Some).
  assert (Hnot : all batch <> fulfilled).
  { intros H. apply Hall in H. rewrite allFulfilled_lookup in H.
    by specialize (H i pending Hi). }
  unfold resolveTask, batch_sound. cbn. repeat split.
  - done.
  - by rewrite length_insert.
  - intros j f Hj Hpj. destruct (decide (i = j)) as [->|Hne].
    + exists r. congruence.
    + rewrite list_lookup_insert_ne in Hpj by done. eauto.
  - intros j Hpj. destruct (decide (i = j)) as [->|Hne].
    + rewrite list_lookup_insert_eq in Hpj by done. discriminate.
    + rewrite list_lookup_insert_ne in Hpj by done.
      by rewrite (Hrej j Hpj).
  - destruct (all batch); [|congruence|done].
    by destruct (allFulfilled (<[i:=fulfilled]> (readPromises batch))).
Qed.

(** What one ended task does to its batch. *)
Lemma taskSettled_batch b i w batch :
  uploads w !! b = Some batch ->
  taskSettled b i w = w
  /\ (files batch !! i = None \/ readPromises batch !! i <> Some pending)
  \/ exists file batch',
       files batch !! i = Some file
       /\ readPromises batch !! i = Some pending
       /\ ((exists err, fileTask file = inl err)
             /\ batch' = rejectTask i batch
           \/ (exists r, fileTask file = inr r
                 /\ batch' = resolveTask i r batch))
       /\ taskSettled b i w
          = with_ui (react batch batch' (ui w))
                    (with_uploads (<[b := batch']> (uploads w)) w)
       /\ uploads (taskSettled b i w) !! b = Some batch'.
Proof.
  intros Hb. unfold taskSettled. rewrite Hb.
  destruct (files batch !! i) as [file|] eqn:Hfile; [|left; by auto].
  destruct (readPromises batch !! i) as [[| |]|] eqn:Hp;
    try (left; split; [done|by right]).
  right. exists file.
  assert (Hlt : (b < length (uploads w))%nat) by (by eapply lookup_lt_Some).
  destruct (fileTask file) as [err|r] eqn:Htask; eexists;
    (split; [done|]); (split; [done|]); (split; [|split; [done|]]);
    [left|cbn; by rewrite list_lookup_insert_eq
     |right|cbn; by rewrite list_lookup_insert_eq]; eauto.
Qed.

Lemma taskSettled_other_batch b b' i w :
  b <> b' -> uploads (taskSettled b' i w) !! b = uploads w !! b.
Proof.
  intros Hne. unfold taskSettled.
  repeat case_match; try done; cbn; by rewrite list_lookup_insert_ne.
Qed.

Lemma taskSettled_sound fs b b' i w :
  batch_at fs b w -> batch_at fs b (taskSettled b' i w).
Proof.
  intros (batch & Hb & Hsound). unfold batch_at.
  destruct (decide (b = b')) as [<-|Hne];
    [|rewrite taskSettled_other_batch by done; eauto].
  destruct (taskSettled_batch b i w batch Hb)
    as [[-> _]|(file & batch' & Hfile & Hp & Hcase & _ & Hb')]; [eauto|].
  exists batch'. split; [done|].
  destruct Hsound as (Hfiles & Hsound'). rewrite Hfiles in Hfile.
  pose proof (conj Hfiles Hsound') as Hsound.
  destruct Hcase as [[[err Htask] ->]|(r & Htask & ->)].
  - by eapply rejectTask_sound.
  - by eapply resolveTask_sound.
Qed.

Lemma step_uploads w ev :
  match ev with
  | FilesSelected _ | TaskSettled _ _ => True
  | _ => uploads (step w ev) = uploads w
  end.
Proof.
  destruct ev; cbn [step]; try done.
  - unfold handleSuggestionClick. by case_match.
  - unfold handleSubmit. by repeat case_match.
  - unfold answerSettled. by case_match.
Qed.

Lemma step_sound fs b w ev : batch_at fs b w -> batch_at fs b (step w ev).
Proof.
  intros Hw. pose proof (step_uploads w ev) as Hup.
  destruct ev; try (unfold batch_at in *; by rewrite Hup).
  - destruct Hw as (batch & Hb & Hsound). exists batch. split; [|done].
    cbn [step]. unfold handleFileChange.
    repeat case_match; try done; cbn; by apply lookup_app_l_Some.
  - by apply taskSettled_sound.
Qed.

Lemma run_sound fs b events : forall w,
  batch_at fs b w -> batch_at fs b (run w events).
Proof.
  induction events as [|ev events IH]; intros w Hw; [done|].
  apply IH, step_sound, Hw.
Qed.

(** A fresh batch is sound. *)
Lemma handleFileChange_sound fs w :
  batch_at fs (length (uploads w)) (handleFileChange (Some fs) w).
Proof.
  unfold batch_at, handleFileChange. destruct fs as [|f fs].
  - eexists. cbn. rewrite list_lookup_middle by done. split; [done|].
    unfold batch_sound. cbn. by repeat split.
  - eexists. cbn [uploads with_uploads].
    rewrite list_lookup_middle by done. split; [done|].
    unfold batch_sound. cbn [files readPromises all].
    repeat split; try done.
    + by rewrite length_replicate.
    + intros i file _ Hi. by apply lookup_replicate in Hi as [? _].
    + intros i Hi. by apply lookup_replicate in Hi as [? _].
Qed.

(** With a file whose task fails, [Promise.all] is never fulfilled. *)
Lemma failing_never_fulfilled fs batch :
  batch_sound fs batch ->
  (exists i file err, fs !! i = Some file /\ fileTask file = inl err) ->
  all batch <> fulfilled.
Proof.
  intros (_ & Hlen & Hful & _ & Hall) (i & file & err & Hfile & Htask) H.
  apply Hall in H. rewrite allFulfilled_lookup in H.
  assert (Hlt : (i < length (readPromises batch))%nat).
  { rewrite Hlen. by eapply lookup_lt_Some. }
  apply lookup_lt_is_Some in Hlt as [p Hp].
  rewrite (H i p Hp) in Hp. destruct (Hful i file Hfile Hp). congruence.
Qed.

Lemma taskSettled_keeps_documents fs b i w :
  batch_at fs b w ->
  (exists i file err, fs !! i = Some file /\ fileTask file = inl err) ->
  documents (ui (taskSettled b i w)) = documents (ui w).
Proof.
  intros Hw Hfail. pose proof (taskSettled_sound fs b b i w Hw) as Hw'.
  destruct Hw as (batch & Hb & Hsound). destruct Hw' as (batch'' & Hb'' & Hsound').
  destruct (taskSettled_batch b i w batch Hb)
    as [[-> _]|(file & batch' & _ & _ & _ & Heq & Hb')]; [done|].
  rewrite Hb' in Hb''. injection Hb'' as <-.
  pose proof (failing_never_fulfilled fs batch' Hsound' Hfail).
  rewrite Heq. cbn. unfold react.
  by destruct (all batch), (all batch').
Qed.

Lemma taskSettled_followed fs b st0 ended i w :
  batch_followed fs b st0 ended w ->
  batch_followed fs b st0 (i :: ended) (taskSettled b i w).
Proof.
  intros (batch & Hb & Hsound & Hpend & Hrej & Hended).
  pose proof (taskSettled_sound fs b b i w (ex_intro _ batch (conj Hb Hsound)))
    as (batch'' & Hb'' & Hsound').
  destruct (taskSettled_batch b i w batch Hb)
    as [[Heq Hwhy]|(file & batch' & Hfile & Hp & Hcase & Heq & Hb')].
  - rewrite Heq. exists batch. do 4 (split; [done|]).
    intros j Hj Hlt. apply elem_of_cons in Hj as [->|Hj]; [|by apply Hended].
    destruct Hwhy as [Hnone|Hnot]; [|done].
    destruct Hsound as (Hfiles & _). rewrite Hfiles in Hnone.
    apply lookup_ge_None in Hnone. lia.
  - rewrite Hb' in Hb''. injection Hb'' as <-.
    exists batch'. split; [done|]. split; [done|].
    assert (Hlt : (i < length (readPromises batch))%nat)
      by (by eapply lookup_lt_Some).
    rewrite Heq. cbn [ui with_ui]. unfold react.
    destruct Hcase as [[_ ->]|(r & _ & ->)]; cbn [all rejectTask resolveTask
      readPromises].
    + split; [|split].
      * by destruct (all batch).
      * destruct (all batch) eqn:Hall; intros H; [by rewrite Hpend|done|auto].
      * intros j Hj Hjlt Hpj. destruct (decide (i = j)) as [->|Hne].
        { rewrite list_lookup_insert_eq in Hpj by done. discriminate. }
        rewrite list_lookup_insert_ne in Hpj by done.
        apply elem_of_cons in Hj as [->|Hj]; [done|]. by apply (Hended j).
    + split; [|split].
      * destruct (all batch) eqn:Hall; try done.
        destruct (allFulfilled _); [done|]. auto.
      * destruct (all batch) eqn:Hall; intros H; [|done|auto].
        by destruct (allFulfilled _).
      * intros j Hj Hjlt Hpj. destruct (decide (i = j)) as [->|Hne].
        { rewrite list_lookup_insert_eq in Hpj by done. discriminate. }
        rewrite list_lookup_insert_ne in Hpj by done.
        apply elem_of_cons in Hj as [->|Hj]; [done|]. by apply (Hended j).
Qed.

Lemma run_followed fs b st0 order : forall ended w,
  batch_followed fs b st0 ended w ->
  batch_followed fs b st0 (rev order ++ ended)
                 (run w (map (TaskSettled b) order)).
Proof.
  induction order as [|i order IH]; intros ended w Hw; [done|].
  cbn [map run fold_left rev]. rewrite <- app_assoc. cbn [app].
  apply (IH (i :: ended)). by apply taskSettled_followed.
Qed.

Lemma handleFileChange_followed fs w :
  fs <> [] ->
  batch_followed fs (length (uploads w)) (ui w) []
                 (handleFileChange (Some fs) w).
Proof.
  intros Hfs. destruct (handleFileChange_sound fs w) as (batch & Hb & Hsound).
  exists batch. split; [done|]. split; [done|].
  destruct fs as [|f fs]; [done|]. cbn in Hb.
  rewrite list_lookup_middle in Hb by done. injection Hb as <-. cbn.
  do 2 (split; [done|]). intros i Hi. by apply elem_of_nil in Hi.
Qed.

Example corrupt_second_file :
  let w := upload [Samples.text_file "notes.txt" "The sky is blue.";
                   Samples.corrupt_pdf] [0; 1]%nat (init Samples.with_key) in
  documents (ui w) = [] /\ error (ui w) = Some read_error.
Proof. vm_compute. by split. Qed.

(** C1. For every upload batch with a file whose extraction fails: whatever
    else happens after the selection, the end of a task of that batch never
    changes the DocumentSet; and once all its tasks have ended, in whatever
    order, the state is the one of the selection with the read error in the
    error slot, so the documents of earlier batches are as they were and
    none of the batch has been added. *)
Theorem failed_upload_adds_nothing
    (w : World) (fs : list File) (order : list nat) :
  (exists i file err, fs !! i = Some file /\ fileTask file = inl err) ->
  (forall events i,
     let w1 := run (handleFileChange (Some fs) w) events in
     documents (ui (step w1 (TaskSettled (length (uploads w)) i)))
     = documents (ui w1))
  /\ (order ≡ₚ seq 0 (length fs) ->
      let w' := upload fs order w in
      documents (ui w') = documents (ui w)
      /\ error (ui w') = Some read_error
      /\ messages (ui w') = messages (ui w)
      /\ userInput (ui w') = userInput (ui w)
      /\ isLoading (ui w') = isLoading (ui w)).
Proof.
  intros Hfail. split.
  - intros events i w1. cbn [step].
    apply (taskSettled_keeps_documents fs); [|done].
    apply run_sound, handleFileChange_sound.
  - intros Horder w'.
    assert (Hfs : fs <> []).
    { destruct Hfail as (i & file & _ & Hfile & _). by destruct fs. }
    destruct (run_followed fs (length (uploads w)) (ui w) order [] _
                (handleFileChange_followed fs w Hfs))
      as (batch & _ & Hsound & _ & Hrej & Hended).
    fold (upload fs order w) in Hrej. fold w' in Hrej.
    enough (Hall : all batch = rejected) by (by rewrite (Hrej Hall)).
    destruct Hfail as (i & file & err & Hfile & Htask).
    assert (Hlt : (i < length fs)%nat) by (by eapply lookup_lt_Some).
    assert (Hin : i ∈ rev order ++ []).
    { rewrite app_nil_r. apply list_elem_of_In. apply -> in_rev.
      apply list_elem_of_In. rewrite Horder. apply elem_of_seq. lia. }
    specialize (Hended i Hin Hlt).
    destruct Hsound as (_ & Hlen & Hful & Hrejected & _).
    rewrite <- Hlen in Hlt. apply lookup_lt_is_Some in Hlt as [p Hp].
    destruct p; [done| |by apply (Hrejected i)].
    destruct (Hful i file Hfile Hp). congruence.
Qed.

Lemma failed_upload_adds_nothing_witness :
  let w := shown Samples.with_key
                 (mkState [Samples.doc_a] [] [] false None) in
  let w' := upload [Samples.text_file "notes.txt" "The sky is blue.";
                    Samples.corrupt_pdf] [1; 0]%nat w in
  documents (ui w') = [Samples.doc_a] /\ error (ui w') = Some read_error.
Proof.
  intros w w'.
  assert (Hfail : exists i file err,
            [Samples.text_file "notes.txt" "The sky is blue.";
             Samples.corrupt_pdf] !! i = Some file
            /\ fileTask file = inl err).
  { exists 1%nat, Samples.corrupt_pdf, (Error (lit "Invalid PDF structure.")).
    split; reflexivity. }
  assert (Horder : [1; 0]%nat ≡ₚ seq 0 2) by apply Permutation_swap.
  destruct (proj2 (failed_upload_adds_nothing w _ [1; 0]%nat Hfail) Horder)
    as (Hdocs & Herr & _).
  split; [exact Hdocs | exact Herr].
Defined.

(** *** Batches in which every task succeeds *)

Lemma run_cons w ev events : run w (ev :: events) = run (step w ev) events.
Proof. reflexivity. Qed.

Lemma in_order_cons fs i order file :
  fs !! i = Some file -> in_order fs (i :: order) = file :: in_order fs order.
Proof. intros H. unfold in_order. cbn. by rewrite H. Qed.

Lemma in_order_selection_aux (before fs : list File) :
  in_order (before ++ fs) (seq (length before) (length fs)) = fs.
Proof.
  revert before. induction fs as [|f fs IH]; intros before; [done|].
  cbn [length seq].
  rewrite (in_order_cons _ _ _ f) by (by apply list_lookup_middle).
  f_equal. specialize (IH (before ++ [f])).
  rewrite <- app_assoc, length_app in IH. cbn in IH.
  by rewrite Nat.add_1_r in IH.
Qed.

(** Taken in selection order, the files are the selection. *)
Lemma in_order_selection (fs : list File) :
  in_order fs (seq 0 (length fs)) = fs.
Proof. apply (in_order_selection_aux [] fs). Qed.

Lemma pushed_inr file r : fileTask file = inr r -> pushed file = option_list r.
Proof. intros H. unfold pushed. rewrite H. by destruct r. Qed.

Lemma run_all_succeed fs b order : forall w batch,
  uploads w !! b = Some batch ->
  files batch = fs ->
  length (readPromises batch) = length fs ->
  all batch = pending ->
  allFulfilled (readPromises batch) = false ->
  (forall file, file ∈ fs -> exists r, fileTask file = inr r) ->
  NoDup order ->
  (forall i, i ∈ order -> readPromises batch !! i = Some pending) ->
  exists batch',
    uploads (run w (map (TaskSettled b) order)) !! b = Some batch'
    /\ newDocs batch' = newDocs batch ++ flat_map pushed (in_order fs order)
    /\ (forall i, i ∈ order -> readPromises batch' !! i = Some fulfilled)
    /\ (forall i, i ∉ order -> readPromises batch' !! i = readPromises batch !! i)
    /\ ui (run w (map (TaskSettled b) order))
       = if allFulfilled (readPromises batch')
         then onFulfilled (newDocs batch') (ui w)
         else ui w.
Proof.
  induction order as [|i order IH];
    intros w batch Hb Hfiles Hlen Hall Hnot Hok Hnd Hpending.
  - exists batch. cbn. rewrite app_nil_r, Hnot.
    do 2 (split; [done|]). split; [|done]. intros i Hi. by apply elem_of_nil in Hi.
  - apply NoDup_cons in Hnd as [Hi Hnd].
    assert (Hp : readPromises batch !! i = Some pending)
      by (apply Hpending; by left).
    assert (Hlt : (i < length (readPromises batch))%nat)
      by (by eapply lookup_lt_Some).
    assert (Hfile : is_Some (fs !! i))
      by (apply lookup_lt_is_Some; by rewrite <- Hlen).
    destruct Hfile as [file Hfile].
    destruct (Hok file) as [r Htask]; [by eapply list_elem_of_lookup_2|].
    destruct (taskSettled_batch b i w batch Hb)
      as [[_ [Hnone|Hnp]]|(file' & batch' & Hfile' & _ & Hcase & Heq & Hb')];
      [congruence|done|].
    rewrite Hfiles, Hfile in Hfile'. injection Hfile' as <-.
    destruct Hcase as [[[err Herr] _]|(r' & Hr' & ->)]; [congruence|].
    assert (r' = r) as -> by congruence.
    cbn [map]. rewrite run_cons. cbn [step].
    rewrite (in_order_cons fs i order file Hfile). cbn [flat_map].
    rewrite (pushed_inr file r Htask).
    set (ps := <[i:=fulfilled]> (readPromises batch)).
    assert (Hui : ui (taskSettled b i w)
                  = if allFulfilled ps
                    then onFulfilled (newDocs batch ++ option_list r) (ui w)
                    else ui w).
    { rewrite Heq. cbn. unfold react. rewrite Hall. cbn. fold ps.
      rewrite Hall. by destruct (allFulfilled ps). }
    destruct (allFulfilled ps) eqn:Hps.
    + assert (order = []) as ->.
      { destruct order as [|j order]; [done|]. exfalso.
        rewrite allFulfilled_lookup in Hps.
        assert (Hj : ps !! j = Some pending).
        { unfold ps. rewrite list_lookup_insert_ne.
          - apply Hpending. right. by left.
          - intros ->. apply Hi. by left. }
        by specialize (Hps j pending Hj). }
      exists (resolveTask i r batch). cbn [map]. unfold run. cbn [fold_left].
      split; [done|]. cbn [newDocs readPromises resolveTask in_order omap
                           flat_map]. fold ps.
      rewrite app_nil_r, Hps.
      split; [done|]. split; [|split; [|done]].
      * intros j Hj. apply list_elem_of_singleton in Hj as ->.
        unfold ps. by rewrite list_lookup_insert_eq.
      * intros j Hj. unfold ps. rewrite list_lookup_insert_ne; [done|].
        intros ->. apply Hj. by left.
    + destruct (IH (taskSettled b i w) (resolveTask i r batch))
        as (batch' & Hb'' & Hdocs & Hful & Hrest & Hui'); try done.
      * cbn. by rewrite length_insert.
      * cbn. fold ps. by rewrite Hall, Hps.
      * intros j Hj. cbn. rewrite list_lookup_insert_ne.
        -- apply Hpending. by right.
        -- by intros ->.
      * exists batch'. split; [done|]. split; [|split; [|split]].
        -- rewrite Hdocs. cbn. by rewrite <- app_assoc.
        -- intros j Hj. apply elem_of_cons in Hj as [->|Hj]; [|by apply Hful].
           rewrite Hrest by done. cbn. by rewrite list_lookup_insert_eq.
        -- intros j Hj. apply not_elem_of_cons in Hj as [Hne Hj].
           rewrite Hrest by done. cbn. by rewrite list_lookup_insert_ne.
        -- by rewrite Hui', Hui.
Qed.

Lemma allFulfilled_replicate_pending n :
  allFulfilled (replicate (S n) pending) = false.
Proof. reflexivity. Qed.

(** C2, as the specification states it, fails: when the task of the second
    file ends before the task of the first, the second file's document is
    appended first. *)
Lemma upload_in_reverse_completion_order :
  let fs := [Samples.text_file "a.txt" "A"; Samples.text_file "b.txt" "B"] in
  let w' := upload fs [1; 0]%nat (init Samples.with_key) in
  flat_map pushed fs = [Samples.doc_a; Samples.doc_b]
  /\ documents (ui w') = [Samples.doc_b; Samples.doc_a]
  /\ documents (ui w') <> documents (ui (init Samples.with_key))
                          ++ flat_map pushed fs.
Proof. vm_compute. repeat split. discriminate. Qed.

(** As long as a task of the batch has not ended, the ended ones have
    changed no state cell. *)
Lemma upload_unfinished fs ended rest w :
  ended ++ rest ≡ₚ seq 0 (length fs) ->
  rest <> [] ->
  (forall file, file ∈ fs -> exists r, fileTask file = inr r) ->
  ui (upload fs ended w) = ui w.
Proof.
  intros Hperm Hrest Hok.
  assert (Hnd : NoDup (ended ++ rest)) by (rewrite Hperm; apply NoDup_seq).
  apply NoDup_app in Hnd as (Hnd1 & Hdisj & _).
  assert (Hrange : forall i, i ∈ ended ++ rest -> (i < length fs)%nat).
  { intros i Hi. rewrite Hperm in Hi. apply elem_of_seq in Hi. lia. }
  destruct fs as [|f fs0].
  { apply Permutation_nil_r in Hperm. by destruct ended, rest. }
  set (fs := f :: fs0) in *. unfold upload.
  set (batch := mkBatch fs (replicate (length fs) pending) [] pending).
  change (handleFileChange (Some fs) w)
    with (with_uploads (uploads w ++ [batch]) w).
  destruct (run_all_succeed fs (length (uploads w)) ended
              (with_uploads (uploads w ++ [batch]) w) batch)
    as (batch' & _ & _ & _ & Hkept & ->); try done.
  - cbn. by rewrite list_lookup_middle.
  - unfold batch. cbn [readPromises]. by rewrite length_replicate.
  - intros i Hi. unfold batch. cbn [readPromises].
    apply lookup_replicate. split; [done|].
    apply Hrange, elem_of_app. by left.
  - destruct (allFulfilled (readPromises batch')) eqn:Hall; [|done].
    exfalso. rewrite allFulfilled_lookup in Hall.
    destruct rest as [|j rest']; [done|].
    assert (Hj : readPromises batch' !! j = Some pending).
    { rewrite Hkept.
      - unfold batch. cbn [readPromises]. apply lookup_replicate.
        split; [done|]. apply Hrange, elem_of_app. right. by left.
      - intros Hin. apply (Hdisj j Hin). by left. }
    by specialize (Hall j pending Hj).
Qed.

(** C2, amended. For every upload batch in which every task succeeds, no
    state cell changes as long as a task of the batch has not ended; once
    all tasks have ended the DocumentSet has grown, in one append, by the
    documents of the files with a non-empty content, in the order in which
    their tasks ended: the same documents as in selection order, and in
    selection order when the tasks end in that order.  No other state cell
    changes. *)
Theorem upload_appends_in_completion_order
    (w : World) (fs : list File) (order : list nat) :
  order ≡ₚ seq 0 (length fs) ->
  (forall file, file ∈ fs -> exists r, fileTask file = inr r) ->
  let w' := upload fs order w in
  let appended := flat_map pushed (in_order fs order) in
  ui w' = onFulfilled appended (ui w)
  /\ documents (ui w') = documents (ui w) ++ appended
  /\ appended ≡ₚ flat_map pushed fs
  /\ (order = seq 0 (length fs) ->
      documents (ui w') = documents (ui w) ++ flat_map pushed fs)
  /\ (forall ended rest, order = ended ++ rest -> rest <> [] ->
      ui (upload fs ended w) = ui w).
Proof.
  intros Horder Hok w' appended.
  assert (Hbefore : forall ended rest, order = ended ++ rest -> rest <> [] ->
            ui (upload fs ended w) = ui w).
  { intros ended rest -> Hrest. by apply (upload_unfinished fs ended rest). }
  assert (Hperm : appended ≡ₚ flat_map pushed fs).
  { unfold appended. rewrite <- (in_order_selection fs) at 2.
    unfold in_order. by rewrite Horder. }
  assert (Hui : ui w' = onFulfilled appended (ui w)).
  { unfold w', upload, appended. destruct fs as [|f fs].
    - apply Permutation_nil_r in Horder as ->. reflexivity.
    - set (fs' := f :: fs) in *.
      set (batch := mkBatch fs' (replicate (length fs') pending) [] pending).
      assert (Hw1 : handleFileChange (Some fs') w
                    = with_uploads (uploads w ++ [batch]) w) by done.
      rewrite Hw1.
      destruct (run_all_succeed fs' (length (uploads w)) order
                  (with_uploads (uploads w ++ [batch]) w) batch)
        as (batch' & _ & Hdocs & Hful & Hrest & ->); try done.
      + cbn. by rewrite list_lookup_middle.
      + cbn. by rewrite length_replicate.
      + rewrite Horder. apply NoDup_seq.
      + intros i Hi. rewrite Horder in Hi. apply elem_of_seq in Hi.
        cbn [readPromises batch]. apply lookup_replicate. split; [done|lia].
      + replace (allFulfilled (readPromises batch')) with true.
        * by rewrite Hdocs.
        * symmetry. apply allFulfilled_lookup. intros i p Hp.
          destruct (decide (i ∈ order)) as [Hi|Hi].
          -- rewrite (Hful i Hi) in Hp. congruence.
          -- rewrite (Hrest i Hi) in Hp. exfalso. apply Hi.
             rewrite Horder. apply elem_of_seq.
             apply lookup_lt_Some in Hp. cbn in Hp.
             rewrite length_replicate in Hp. cbn. lia. }
  split; [exact Hui|]. split; [by rewrite Hui|]. split; [exact Hperm|].
  split; [|exact Hbefore].
  intros ->. rewrite Hui. unfold appended. by rewrite in_order_selection.
Qed.

Lemma upload_appends_in_completion_order_witness :
  let fs := [Samples.text_file "a.txt" "A"; Samples.text_file "empty.txt" "";
             Samples.text_file "b.txt" "B"] in
  let w := shown Samples.with_key
                 (mkState [Samples.doc_c] [] [] false None) in
  documents (ui (upload fs [2; 0; 1]%nat w))
  = [Samples.doc_c; Samples.doc_b; Samples.doc_a]
  /\ documents (ui (upload fs [2; 0]%nat w)) = [Samples.doc_c].
Proof.
  intros fs w.
  assert (H : [2; 0; 1]%nat ≡ₚ seq 0 (length fs)
              /\ forall file, file ∈ fs -> exists r, fileTask file = inr r);
    [|destruct (upload_appends_in_completion_order w fs [2; 0; 1]%nat
                 (proj1 H) (proj2 H)) as (_ & Hdocs & _ & _ & Hbefore);
      split; [exact Hdocs|];
      exact (f_equal documents (Hbefore [2; 0]%nat [1%nat] eq_refl
                                  ltac:(discriminate)))].
  split.
  - change (seq 0 (length fs)) with [0; 1; 2]%nat.
    etrans; [apply Permutation_swap|]. apply perm_skip, Permutation_swap.
  - intros file Hfile. unfold fs in Hfile.
    repeat (apply elem_of_cons in Hfile as [->|Hfile]; [by eexists|]).
    by apply elem_of_nil in Hfile.
Defined.

(** * Further properties of the code *)

(** ** Extraction of one file *)

Lemma onFulfilled_nothing st : onFulfilled [] st = st.
Proof. destruct st. unfold onFulfilled, setDocuments. cbn. by rewrite app_nil_r. Qed.

(** The state cells after a batch in which every task succeeds. *)
Lemma upload_all_succeed fs order w :
  order ≡ₚ seq 0 (length fs) ->
  (forall file, file ∈ fs -> exists r, fileTask file = inr r) ->
  ui (upload fs order w)
  = onFulfilled (flat_map pushed (in_order fs order)) (ui w).
Proof.
  intros Horder Hok. unfold upload. destruct fs as [|f fs].
  - apply Permutation_nil_r in Horder as ->. reflexivity.
  - set (fs' := f :: fs) in *.
    set (batch := mkBatch fs' (replicate (length fs') pending) [] pending).
    change (handleFileChange (Some fs') w)
      with (with_uploads (uploads w ++ [batch]) w).
    destruct (run_all_succeed fs' (length (uploads w)) order
                (with_uploads (uploads w ++ [batch]) w) batch)
      as (batch' & _ & Hdocs & Hful & Hrest & ->); try done.
    + cbn. by rewrite list_lookup_middle.
    + cbn. by rewrite length_replicate.
    + rewrite Horder. apply NoDup_seq.
    + intros i Hi. rewrite Horder in Hi. apply elem_of_seq in Hi.
      cbn [readPromises batch]. apply lookup_replicate. split; [done|lia].
    + replace (allFulfilled (readPromises batch')) with true;
        [by rewrite Hdocs|].
      symmetry. apply allFulfilled_lookup. intros i p Hp.
      destruct (decide (i ∈ order)) as [Hi|Hi].
      * rewrite (Hful i Hi) in Hp. congruence.
      * rewrite (Hrest i Hi) in Hp. exfalso. apply Hi.
        rewrite Horder. apply elem_of_seq. apply lookup_lt_Some in Hp.
        cbn in Hp. rewrite length_replicate in Hp. cbn. lia.
Qed.

(** X1. A file that is not a PDF is read as text and taken verbatim: when
    the reader yields a non-empty text, the file's task yields the document
    made of the file's name and exactly that text, and uploading the file
    alone appends that document and nothing else; when the reader fails,
    the task fails with the reader's error. *)
Theorem text_file_uploaded_verbatim (w : World) (file : File) :
  file_type file <> lit "application/pdf" ->
  (forall t, readAsText file = inr t -> t <> [] ->
     fileTask file = inr (Some (mkDocumentFile (file_name file) t))
     /\ ui (upload [file] [0%nat] w)
        = onFulfilled [mkDocumentFile (file_name file) t] (ui w)
     /\ documents (ui (upload [file] [0%nat] w))
        = documents (ui w) ++ [mkDocumentFile (file_name file) t])
  /\ (forall err, readAsText file = inl err -> fileTask file = inl err).
Proof.
  intros Htype.
  assert (Hread : readContent file = readAsText file).
  { unfold readContent. by rewrite decide_False. }
  split.
  - intros t Ht Hne.
    assert (Htask : fileTask file
                    = inr (Some (mkDocumentFile (file_name file) t))).
    { unfold fileTask. rewrite Hread, Ht. cbn. by destruct t. }
    assert (Hui : ui (upload [file] [0%nat] w)
                  = onFulfilled [mkDocumentFile (file_name file) t] (ui w)).
    { rewrite upload_all_succeed.
      - unfold in_order, pushed. cbn. by rewrite Htask.
      - done.
      - intros f Hf. apply list_elem_of_singleton in Hf as ->. eauto. }
    split; [done|]. split; [done|]. by rewrite Hui.
  - intros err Herr. unfold fileTask. by rewrite Hread, Herr.
Qed.

Lemma text_file_uploaded_verbatim_witness :
  documents (ui (upload [Samples.text_file "notes.txt" "The sky is blue."]
                        [0%nat] (init Samples.with_key)))
  = [mkDocumentFile (lit "notes.txt") (lit "The sky is blue.")].
Proof.
  refine (proj2 (proj2 (proj1 (text_file_uploaded_verbatim
            (init Samples.with_key)
            (Samples.text_file "notes.txt" "The sky is blue.") _)
            (lit "The sky is blue.") eq_refl _))).
  - vm_compute. discriminate.
  - vm_compute. discriminate.
Defined.

(** X2. A selection in which no file yields any content (every task
    succeeds with an empty text; in particular a selection of no file at
    all) changes no state cell once its tasks have ended: nothing is added
    and no error is raised.  The same holds when the input element reports
    no file list. *)
Theorem empty_files_are_dropped_silently
    (w : World) (fs : list File) (order : list nat) :
  order ≡ₚ seq 0 (length fs) ->
  (forall file, file ∈ fs -> fileTask file = inr None) ->
  ui (upload fs order w) = ui w
  /\ handleFileChange None w = w.
Proof.
  intros Horder Hempty. split; [|done].
  rewrite upload_all_succeed; [|done|by eauto].
  replace (flat_map pushed (in_order fs order)) with (@nil DocumentFile);
    [apply onFulfilled_nothing|].
  assert (Hin : forall file, file ∈ in_order fs order -> fileTask file = inr None).
  { intros file Hfile. apply Hempty. unfold in_order in Hfile.
    apply list_elem_of_omap in Hfile as (i & _ & Hi).
    by eapply list_elem_of_lookup_2. }
  induction (in_order fs order) as [|file files IH]; [done|].
  cbn. unfold pushed at 1. rewrite (Hin file) by (by left).
  apply IH. intros f Hf. apply Hin. by right.
Qed.

Lemma empty_files_are_dropped_silently_witness :
  ui (upload [Samples.text_file "empty.txt" ""; Samples.text_file "void.md" ""]
             [1; 0]%nat (init Samples.with_key))
  = ui (init Samples.with_key).
Proof.
  refine (proj1 (empty_files_are_dropped_silently (init Samples.with_key)
            [Samples.text_file "empty.txt" ""; Samples.text_file "void.md" ""]
            [1; 0]%nat _ _)).
  - apply Permutation_swap.
  - intros file Hfile.
    repeat (apply elem_of_cons in Hfile as [->|Hfile]; [reflexivity|]).
    by apply elem_of_nil in Hfile.
Defined.

Lemma readPages_bad_page pdf (pages : list (list TextContentItem)) err more :
  forall i fullText,
  (forall k items, pages !! k = Some items ->
     exists page, getPage pdf (i + k)%nat = inr page
                  /\ getTextContent page = inr items) ->
  (getPage pdf (i + length pages)%nat = inl err
   \/ exists page, getPage pdf (i + length pages)%nat = inr page
                   /\ getTextContent page = inl err) ->
  readPages pdf (length pages + S more) i fullText = inl err.
Proof.
  induction pages as [|items rest IH]; intros i fullText Hpages Hbad.
  - cbn [length] in *. rewrite Nat.add_0_r in Hbad. cbn.
    destruct Hbad as [->|(page & -> & Hbad)]; [done|]. cbn. by rewrite Hbad.
  - destruct (Hpages 0%nat items eq_refl) as (page & Hpage & Hitems).
    rewrite Nat.add_0_r in Hpage.
    cbn [length Nat.add readPages]. rewrite Hpage. cbn [bind_thrown].
    rewrite Hitems. cbn [bind_thrown]. apply IH.
    + intros k its Hk. replace (S i + k)%nat with (i + S k)%nat by lia.
      by apply Hpages.
    + cbn [length] in Hbad.
      by replace (S i + length rest)%nat with (i + S (length rest))%nat by lia.
Qed.

(** X3. A PDF file fails as a whole: when pdf.js cannot open it, or when one
    of its pages cannot be fetched or has no readable text content, the
    file's task is rejected with that error, whatever the pages before it
    yielded; no partial text is produced. *)
Theorem pdf_failure_fails_the_file (file : File) :
  file_type file = lit "application/pdf" ->
  (forall err, getDocument file = inl err -> fileTask file = inl err)
  /\ (forall pdf (pages : list (list TextContentItem)) err,
        getDocument file = inr pdf ->
        (length pages < numPages pdf)%nat ->
        (forall k items, pages !! k = Some items ->
           exists page, getPage pdf (S k) = inr page
                        /\ getTextContent page = inr items) ->
        (getPage pdf (S (length pages)) = inl err
         \/ exists page, getPage pdf (S (length pages)) = inr page
                         /\ getTextContent page = inl err) ->
        readContent file = inl err /\ fileTask file = inl err).
Proof.
  intros Htype. split.
  - intros err Herr. unfold fileTask, readContent.
    rewrite decide_True by done. by rewrite Herr.
  - intros pdf pages err Hdoc Hlt Hpages Hbad.
    assert (Hread : readContent file = inl err).
    { unfold readContent. rewrite decide_True by done. rewrite Hdoc.
      cbn [bind_thrown].
      replace (numPages pdf)
        with (length pages + S (numPages pdf - S (length pages)))%nat by lia.
      by apply readPages_bad_page. }
    split; [done|]. unfold fileTask. by rewrite Hread.
Qed.

Lemma pdf_failure_fails_the_file_witness :
  fileTask Samples.corrupt_pdf = inl (Error (lit "Invalid PDF structure."))
  /\ fileTask (mkFile (lit "cut.pdf") (lit "application/pdf")
                 (inr (mkPdf 3 (getPage Samples.two_pages))) (inl NotAnError))
     = inl (Error (lit "Invalid page request.")).
Proof.
  split.
  - exact (proj1 (pdf_failure_fails_the_file Samples.corrupt_pdf eq_refl)
             _ eq_refl).
  - refine (proj2 (proj2 (pdf_failure_fails_the_file
              (mkFile (lit "cut.pdf") (lit "application/pdf")
                 (inr (mkPdf 3 (getPage Samples.two_pages))) (inl NotAnError))
              eq_refl)
              (mkPdf 3 (getPage Samples.two_pages))
              [[TextItem (lit "a"); TextItem (lit "b")]; [TextItem (lit "c")]]
              (Error (lit "Invalid page request.")) eq_refl _ _ _)).
    + cbn. lia.
    + intros [|[|k]] items Hk; inversion Hk; subst; eexists; split;
        reflexivity.
    + by left.
Defined.

(** X4. A PDF whose pages are all readable is dropped as empty exactly when
    it has no page: every page, even one without any text item, contributes
    its two newlines, so a PDF with at least one page always yields a
    document. *)
Theorem pdf_dropped_only_without_pages
    (file : File) (pdf : PDFDocumentProxy)
    (pages : list (list TextContentItem)) :
  file_type file = lit "application/pdf" ->
  getDocument file = inr pdf ->
  length pages = numPages pdf ->
  (forall k items, pages !! k = Some items ->
     exists page, getPage pdf (S k) = inr page
                  /\ getTextContent page = inr items) ->
  (fileTask file = inr None <-> numPages pdf = 0%nat)
  /\ (pushed file = [] <-> numPages pdf = 0%nat).
Proof.
  intros Htype Hdoc Hlen Hpages.
  assert (Hread : readContent file
            = inr (concat (map (fun items => pageText items ++ LF ++ LF) pages))).
  { unfold readContent. rewrite decide_True by done. rewrite Hdoc.
    cbn [bind_thrown]. rewrite <- Hlen.
    by rewrite (readPages_all_pages pdf pages 1 []). }
  unfold pushed, fileTask. rewrite Hread. cbn [bind_thrown]. rewrite <- Hlen.
  destruct pages as [|items rest]; [done|].
  cbn [map concat length]. destruct (pageText items); cbn; by split.
Qed.

Lemma pdf_dropped_only_without_pages_witness :
  fileTask (mkFile (lit "blank.pdf") (lit "application/pdf")
              (inr (mkPdf 0 (fun _ => inl NotAnError))) (inl NotAnError))
  = inr None.
Proof.
  refine (proj2 (proj1 (pdf_dropped_only_without_pages
            (mkFile (lit "blank.pdf") (lit "application/pdf")
               (inr (mkPdf 0 (fun _ => inl NotAnError))) (inl NotAnError))
            (mkPdf 0 (fun _ => inl NotAnError)) [] eq_refl eq_refl eq_refl _))
            eq_refl).
  intros k items Hk. inversion Hk.
Defined.

(** ** What the events keep *)

Lemma step_env w ev : env (step w ev) = env w.
Proof.
  destruct ev; cbn [step]; try done.
  - by destruct (handleFileChange_frame selected w) as (-> & _).
  - by destruct (handleSuggestionClick_frame suggestion w)
      as (_ & _ & _ & -> & _).
  - unfold handleSubmit. by repeat case_match.
  - by destruct (taskSettled_frame b i w) as (-> & _).
  - unfold answerSettled. by case_match.
Qed.

Lemma run_env events : forall w, env (run w events) = env w.
Proof.
  induction events as [|ev events IH]; intros w; [done|].
  rewrite run_cons, IH. apply step_env.
Qed.

Lemma taskSettled_documents b i w :
  exists added,
    documents (ui (taskSettled b i w)) = documents (ui w) ++ added.
Proof.
  unfold taskSettled, react.
  repeat case_match; cbn;
    try (by exists []; rewrite app_nil_r); by eexists.
Qed.

(** X5. Only uploads and removals change the DocumentSet, and an upload
    only appends to it: the selection of files or the end of a task leaves
    the documents held in place and adds after them (possibly nothing), a
    removal filters by name, and typing, choosing a suggestion, submitting
    a question or receiving its answer leave the DocumentSet as it is. *)
Theorem documents_change_only_by_upload_or_removal (w : World) (ev : Event) :
  match ev with
  | FilesSelected _ | TaskSettled _ _ =>
      exists added, documents (ui (step w ev)) = documents (ui w) ++ added
  | DocumentRemoved docName =>
      documents (ui (step w ev))
      = filter (fun doc => name doc <> docName) (documents (ui w))
  | _ => documents (ui (step w ev)) = documents (ui w)
  end.
Proof.
  destruct ev; cbn [step ui with_ui]; try done.
  - unfold handleFileChange. repeat case_match; cbn;
      exists []; by rewrite app_nil_r.
  - by destruct (handleSuggestionClick_frame suggestion w) as (_ & _ & -> & _).
  - unfold handleSubmit, handleSubmit_resume. by repeat case_match.
  - apply taskSettled_documents.
  - unfold answerSettled, handleSubmit_resume. by repeat case_match.
Qed.

Lemma step_messages w ev :
  messages (ui w) `prefix_of` messages (ui (step w ev)).
Proof.
  destruct ev; cbn [step ui with_ui]; try done.
  - by destruct (handleFileChange_frame selected w) as (_ & _ & _ & -> & _).
  - by destruct (handleSuggestionClick_frame suggestion w) as (-> & _).
  - unfold handleSubmit, handleSubmit_resume.
    repeat case_match; cbn; try done; by apply prefix_app_r.
  - by destruct (taskSettled_frame b i w) as (_ & _ & _ & -> & _).
  - unfold answerSettled, handleSubmit_resume.
    repeat case_match; cbn; try done; by apply prefix_app_r.
Qed.

(** X6. The transcript is append-only: whatever events happen, the messages
    present before them are still there afterwards, unchanged and in the
    same positions, at the head of the transcript. *)
Theorem transcript_is_append_only (w : World) (events : list Event) :
  messages (ui w) `prefix_of` messages (ui (run w events))
  /\ forall i m, messages (ui w) !! i = Some m ->
       messages (ui (run w events)) !! i = Some m.
Proof.
  assert (H : messages (ui w) `prefix_of` messages (ui (run w events))).
  { revert w. induction events as [|ev events IH]; intros w; [done|].
    rewrite run_cons. etrans; [apply step_messages|apply IH]. }
  split; [exact H|]. intros i m Hm. by eapply prefix_lookup_Some.
Qed.

Lemma transcript_is_append_only_witness :
  messages (ui (run (init Samples.with_key) Samples.two_questions)) !! 0%nat
  = Some (mkChatMessage (lit "1000") user (lit "What color is the sky?")).
Proof.
  exact (proj2 (transcript_is_append_only
                  (run (init Samples.with_key) Samples.asked)
                  (drop 5 Samples.two_questions)) 0%nat _ eq_refl).
Defined.

Lemma run_invariant (P : World -> Prop) :
  (forall w ev, P w -> P (step w ev)) ->
  forall events w, P w -> P (run w events).
Proof.
  intros Hstep. induction events as [|ev events IH]; intros w Hw; [done|].
  rewrite run_cons. by apply IH, Hstep.
Qed.

Lemma error_is_fixed_intro st m :
  error st = Some m -> m ∈ fixed_messages -> error_is_fixed st.
Proof. intros H Hm. right. eauto. Qed.

Ltac error_fixed :=
  first
    [ assumption
    | by left
    | (eapply error_is_fixed_intro;
       [reflexivity
       |unfold fixed_messages;
        repeat first [apply list_elem_of_here|apply list_elem_of_further]])
    | (unfold error_is_fixed in *; cbn; assumption) ].

Lemma step_error_is_fixed w ev :
  error_is_fixed (ui w) -> error_is_fixed (ui (step w ev)).
Proof.
  intros Hw. destruct ev; cbn [step ui with_ui].
  - unfold handleFileChange. repeat case_match; error_fixed.
  - error_fixed.
  - error_fixed.
  - unfold handleSuggestionClick. case_match; error_fixed.
  - unfold handleSubmit, handleSubmit_resume, askAboutDocuments.
    repeat case_match; simplify_eq; error_fixed.
  - unfold taskSettled, react, onRejected.
    repeat case_match; error_fixed.
  - unfold answerSettled, handleSubmit_resume, askAboutDocuments_resume.
    repeat case_match; simplify_eq; error_fixed.
  - error_fixed.
Qed.

(** X7. The error slot only ever holds one of the five messages written in
    the code: whatever a file reader, pdf.js or the network threw, its own
    message is never shown, and the fallback for a thrown value that is not
    an [Error] is never reached. *)
Theorem error_slot_holds_fixed_messages (e : ProcessEnv) (events : list Event) :
  let st := ui (run (init e) events) in
  (error st = None \/ exists m, error st = Some m /\ m ∈ fixed_messages)
  /\ error st <> Some (lit "An unknown error occurred.").
Proof.
  cbv zeta.
  assert (H : error_is_fixed (ui (run (init e) events))).
  { apply (run_invariant (fun w => error_is_fixed (ui w)));
      [apply step_error_is_fixed | by left]. }
  split; [exact H|].
  destruct H as [->|(m & -> & Hm)]; [done|].
  intros Heq. injection Heq as Heq. subst m. unfold fixed_messages in Hm.
  repeat (apply elem_of_cons in Hm as [Hm|Hm]; [by vm_compute in Hm|]).
  by apply elem_of_nil in Hm.
Qed.

Lemma step_texts_not_empty w ev : texts_not_empty w -> texts_not_empty (step w ev).
Proof.
  unfold texts_not_empty. intros [Hdocs Hups].
  destruct ev; cbn [step ui with_ui]; try done.
  - unfold handleFileChange. repeat case_match; cbn; try done.
    + rewrite app_nil_r. split; [done|].
      apply Forall_app. split; [done|]. by repeat constructor.
    + split; [done|]. apply Forall_app. split; [done|]. by repeat constructor.
  - split; [|done]. cbn. rewrite Forall_forall in Hdocs |- *.
    intros doc Hdoc. apply list_elem_of_filter in Hdoc as [_ Hdoc]. auto.
  - unfold handleSuggestionClick. by case_match.
  - unfold handleSubmit, handleSubmit_resume. by repeat case_match.
  - unfold taskSettled.
    destruct (uploads w !! b) as [batch|] eqn:Hb; [|done].
    destruct (files batch !! i) as [file|] eqn:Hfile; [|done].
    destruct (readPromises batch !! i) as [[| |]|] eqn:Hp; try done.
    assert (Hbatch : Forall (fun doc => content doc <> []) (newDocs batch)).
    { rewrite Forall_lookup in Hups. by apply (Hups b). }
    set (batch' := match fileTask file with
                   | inl _ => rejectTask i batch
                   | inr pushed => resolveTask i pushed batch
                   end).
    assert (Hbatch' : Forall (fun doc => content doc <> []) (newDocs batch')).
    { unfold batch'. destruct (fileTask file) as [err|[doc|]] eqn:Htask;
        cbn; rewrite ?app_nil_r; try done.
      apply Forall_app. split; [done|]. constructor; [|done].
      unfold fileTask in Htask. destruct (readContent file); [done|].
      cbn in Htask. destruct (truthy j) eqn:Hj; [|done].
      injection Htask as <-. cbn. by destruct j. }
    cbn. split.
    + unfold react. repeat case_match; try done.
      cbn. apply Forall_app. by split.
    + by apply Forall_insert.
  - unfold answerSettled, handleSubmit_resume. by repeat case_match.
Qed.

(** X8. No document of the DocumentSet ever has an empty text: a file whose
    content is empty is never added, and this holds in every state the
    component can reach. *)
Theorem documents_have_text (e : ProcessEnv) (events : list Event) :
  Forall (fun doc => content doc <> [])
         (documents (ui (run (init e) events))).
Proof.
  apply (run_invariant texts_not_empty);
    [apply step_texts_not_empty | by split].
Qed.

(** *** Turns of the transcript *)

Lemma in_turn_user transcript m :
  in_turn transcript -> sender m = user -> in_turn (transcript ++ [m]).
Proof.
  intros Hturn Hm i m' Hi Hai.
  apply lookup_app_Some in Hi as [Hi|[_ Hi]].
  - destruct (Hturn i m' Hi Hai) as (j & q & -> & Hj & Hq).
    exists j, q. split; [done|]. split; [|done]. by apply lookup_app_l_Some.
  - destruct (i - length transcript)%nat; [|done]. cbn in Hi. congruence.
Qed.

Lemma in_turn_answer transcript q m :
  in_turn transcript -> last transcript = Some q -> sender q = user ->
  in_turn (transcript ++ [m]).
Proof.
  intros Hturn Hlast Hq i m' Hi Hai.
  apply lookup_app_Some in Hi as [Hi|[Hge Hi]].
  - destruct (Hturn i m' Hi Hai) as (j & q' & -> & Hj & Hq').
    exists j, q'. split; [done|]. split; [|done]. by apply lookup_app_l_Some.
  - destruct (i - length transcript)%nat eqn:Hi'; [|done].
    rewrite last_lookup in Hlast.
    assert (Hlen : (0 < length transcript)%nat).
    { destruct transcript; [done|cbn; lia]. }
    exists (pred (length transcript)), q. split; [lia|].
    split; [by apply lookup_app_l_Some|done].
Qed.

Lemma step_turn_invariant w ev :
  turn_invariant w ->
  (forall query now, ev = QuestionSubmitted query now ->
     isLoading (rendered w) = isLoading (ui w)) ->
  turn_invariant (step w ev).
Proof.
  intros (Hsf & Hturn & Hlast) Hseen.
  split; [by apply step_single_flight|].
  unfold question_is_last in *. destruct ev; cbn [step ui with_ui]; try done.
  - by destruct (handleFileChange_frame selected w) as (_ & _ & _ & -> & -> & _).
  - by destruct (handleSuggestionClick_frame suggestion w) as (-> & -> & _).
  - unfold handleSubmit.
    destruct (negb (truthy (trim query)) || isLoading (rendered w)); [done|].
    destruct (length (documents (rendered w)) =? 0)%nat; [done|].
    destruct (askAboutDocuments _ _ _) as [[msg|]|req]; cbn.
    + split; [by apply in_turn_user|done].
    + split; [by apply in_turn_user|done].
    + split; [by apply in_turn_user|]. intros _. rewrite last_snoc. eauto.
  - by destruct (taskSettled_frame b i w) as (_ & _ & _ & -> & -> & _).
  - unfold answerSettled. destruct (inflight w !! j) eqn:Hj; [|done].
    assert (Hload : isLoading (ui w) = true).
    { destruct Hsf as [[_ Hfl]|[Hl _]]; [by rewrite Hfl in Hj|done]. }
    destruct (Hlast Hload) as (q & Hq & Huser).
    unfold handleSubmit_resume, askAboutDocuments_resume.
    destruct outcome as [thrown|response]; cbn; [done|].
    split; [by eapply in_turn_answer|done].
Qed.

Lemma run_turn_invariant events : forall w just_rendered,
  turn_invariant w ->
  (just_rendered = true -> isLoading (rendered w) = isLoading (ui w)) ->
  paced just_rendered events ->
  turn_invariant (run w events).
Proof.
  induction events as [|ev events IH];
    intros w just_rendered Hw Hseen Hpaced; [done|].
  rewrite run_cons.
  apply (IH _ (match ev with Rendered => true | _ => false end)).
  - apply step_turn_invariant; [done|].
    intros query now ->. cbn in Hpaced. apply Hseen, Hpaced.
  - destruct ev; try discriminate. done.
  - destruct ev; cbn in Hpaced |- *; tauto.
Qed.

(** X9. When the component has rendered again before each submission is
    handled, then in every state it reaches every assistant message of the
    transcript comes right after a user message (so the transcript never
    starts with an answer and never holds two answers in a row), and while
    a question is pending the transcript ends with the user's message.
    (Two submissions handled by one render are both accepted, and their
    answers then follow each other: the condition is needed.) *)
Theorem answers_follow_questions (e : ProcessEnv) (events : list Event) :
  paced true events ->
  let w := run (init e) events in
  (forall i m, messages (ui w) !! i = Some m -> sender m = ai ->
     exists j q, i = S j /\ messages (ui w) !! j = Some q /\ sender q = user)
  /\ (isLoading (ui w) = true ->
      exists q, last (messages (ui w)) = Some q /\ sender q = user).
Proof.
  intros Hpaced. cbv zeta.
  assert (H : turn_invariant (run (init e) events)).
  { apply (run_turn_invariant events (init e) true); [|done|done].
    split; [by left|]. split; [by intros i m Hi|done]. }
  destruct H as (_ & Hturn & Hlast). by split.
Qed.

Lemma answers_follow_questions_witness :
  exists q, messages (ui (run (init Samples.with_key) Samples.answered))
              !! 0%nat = Some q
            /\ sender q = user.
Proof.
  assert (Hpaced : paced true Samples.answered) by (cbn; tauto).
  destruct (proj1 (answers_follow_questions Samples.with_key
                     Samples.answered Hpaced) 1%nat
              (mkChatMessage (lit "1201") ai (lit "Blue.")) eq_refl eq_refl)
    as (j & q & Hj & Hq & Huser).
  injection Hj as <-. by exists q.
Defined.

(** Without the condition the turns are lost: two submissions handled by
    one render are both accepted, and their answers follow each other. *)
Example answers_in_a_row :
  map sender (messages (ui (run (init Samples.with_key)
     (Samples.asked_twice
      ++ [AnswerSettled 0 (inr (mkResponse (lit "Blue."))) 1200;
          AnswerSettled 0 (inr (mkResponse (lit "Blue."))) 1300]))))
  = [user; user; ai; ai].
Proof. vm_compute. reflexivity. Qed.

(** *** Calls and messages *)

Lemma sent_by_snoc s transcript m :
  sent_by s (transcript ++ [m])
  = (sent_by s transcript + if decide (sender m = s) then 1 else 0)%nat.
Proof.
  unfold sent_by. rewrite filter_app, length_app. f_equal.
  rewrite filter_cons, filter_nil. by case_decide.
Qed.

Lemma step_calls_accounted w ev : calls_accounted w -> calls_accounted (step w ev).
Proof.
  unfold calls_accounted. rewrite step_env. intros (Hans & Hask & Hkey).
  destruct ev; cbn [step ui with_ui sent inflight]; try done.
  - by destruct (handleFileChange_frame selected w)
      as (_ & -> & -> & -> & _).
  - by destruct (handleSuggestionClick_frame suggestion w)
      as (-> & _ & _ & _ & -> & -> & _).
  - unfold handleSubmit, askAboutDocuments.
    destruct (negb (truthy (trim query)) || isLoading (rendered w)); [done|].
    destruct (length (documents (rendered w)) =? 0)%nat; [done|].
    destruct (missing (API_KEY (env w))) eqn:Hmissing; cbn;
      rewrite !sent_by_snoc, ?length_app; cbn; repeat case_decide; try done;
      (split; [lia|split; [lia|]]); intros; try done.
    rewrite Hkey by done. lia.
  - by destruct (taskSettled_frame b i w) as (_ & -> & -> & -> & _).
  - unfold answerSettled. destruct (inflight w !! j) eqn:Hj; [|done].
    assert (Hlen : length (delete j (inflight w)) = pred (length (inflight w))).
    { rewrite length_delete by eauto. lia. }
    assert (Hpos : (0 < length (inflight w))%nat).
    { apply lookup_lt_Some in Hj. lia. }
    unfold handleSubmit_resume, askAboutDocuments_resume.
    destruct outcome as [thrown|response]; cbn; rewrite Hlen,
      ?sent_by_snoc; cbn; repeat case_decide; try done;
      (split; [lia|split; [lia|]]); intros; rewrite Hkey by done; lia.
Qed.

(** X10. In every reachable state the calls are accounted for by the
    transcript: there are at most as many calls sent as user messages, and
    exactly as many when a credential is configured (one call per accepted
    question, never a retry); the assistant messages and the calls still in
    flight together never exceed the calls sent (at most one answer per
    call). *)
Theorem one_call_per_question (e : ProcessEnv) (events : list Event) :
  let w := run (init e) events in
  (sent_by ai (messages (ui w)) + length (inflight w) <= length (sent w))%nat
  /\ (length (sent w) <= sent_by user (messages (ui w)))%nat
  /\ (missing (API_KEY e) = false ->
      length (sent w) = sent_by user (messages (ui w))).
Proof.
  cbv zeta.
  assert (H : calls_accounted (run (init e) events)).
  { apply (run_invariant calls_accounted); [apply step_calls_accounted|].
    unfold calls_accounted. cbn. by repeat split. }
  destruct H as (H1 & H2 & H3). rewrite run_env in H3. by repeat split.
Qed.

Lemma one_call_per_question_witness :
  length (sent (run (init Samples.with_key) Samples.two_questions)) = 2%nat.
Proof.
  exact (proj2 (proj2 (one_call_per_question Samples.with_key
                         Samples.two_questions)) eq_refl).
Defined.

Lemma step_calls_composed w ev : calls_composed w -> calls_composed (step w ev).
Proof.
  unfold calls_composed. intros (Hsent & Hsub).
  destruct ev; cbn [step sent inflight with_ui]; try done.
  - by destruct (handleFileChange_frame selected w) as (_ & -> & -> & _).
  - by destruct (handleSuggestionClick_frame suggestion w)
      as (_ & _ & _ & _ & -> & -> & _).
  - unfold handleSubmit.
    destruct (negb (truthy (trim query)) || isLoading (rendered w)) eqn:Hguard;
      [done|].
    apply orb_false_elim in Hguard as [Hq _]. apply negb_false_iff in Hq.
    destruct (documents (rendered w)) as [|doc docs] eqn:Hdocs; [done|]. cbn.
    unfold askAboutDocuments.
    destruct (missing (API_KEY (env w))); cbn; [done|]. split.
    + apply Forall_app. split; [done|]. constructor; [|done].
      exists query, (doc :: docs). done.
    + intros req Hreq. apply elem_of_app in Hreq as [Hreq|Hreq];
        apply elem_of_app; [left; by apply Hsub|by right].
  - by destruct (taskSettled_frame b i w) as (_ & -> & -> & _).
  - unfold answerSettled. destruct (inflight w !! j); [|done]. cbn.
    split; [done|]. intros req Hreq. apply Hsub.
    by eapply list_elem_of_delete_inv.
Qed.

(** X11. Every call ever sent carries a prompt composed for a question that
    is not blank over a document list that is not empty, with the fixed
    model name and the fixed system instruction, whatever the documents and
    the question contain; and a call in flight is one of the calls sent. *)
Theorem calls_are_composed (e : ProcessEnv) (events : list Event) :
  let w := run (init e) events in
  (forall req, req ∈ sent w ->
     systemInstruction req = SYSTEM_INSTRUCTION
     /\ model req = lit "gemini-2.5-flash"
     /\ exists question documents,
          truthy (trim question) = true /\ documents <> []
          /\ contents req = userPrompt question documents)
  /\ inflight w ⊆ sent w.
Proof.
  cbv zeta.
  assert (H : calls_composed (run (init e) events)).
  { apply (run_invariant calls_composed); [apply step_calls_composed|].
    split; [constructor|done]. }
  destruct H as (Hsent & Hsub). split; [|done].
  intros req Hreq. rewrite Forall_forall in Hsent.
  destruct (Hsent req Hreq) as (question & documents & Hq & Hdocs & ->).
  cbn. eauto 10.
Qed.

Lemma calls_are_composed_witness :
  exists question documents,
    truthy (trim question) = true /\ documents <> []
    /\ userPrompt (lit "Why?")
         [mkDocumentFile (lit "notes.txt") (lit "The sky is blue.")]
       = userPrompt question documents.
Proof.
  refine (proj2 (proj2 (proj1 (calls_are_composed Samples.with_key
            Samples.two_questions)
            (mkRequest (lit "gemini-2.5-flash")
               (userPrompt (lit "Why?")
                  [mkDocumentFile (lit "notes.txt") (lit "The sky is blue.")])
               SYSTEM_INSTRUCTION) _))).
  apply list_elem_of_further, list_elem_of_here.
Defined.

(** ** A question and its answer *)

(** X12. For every accepted submission with a credential configured and
    nothing in flight: the error slot is cleared and one call goes out
    carrying the prompt composed from the question and the DocumentSet of
    the handler's render; when the call is answered, after any events in
    which no submission is handled before the component has rendered
    again, the transcript has grown by the user message and then the
    assistant message with the response's text unchanged, the input is
    emptied, the pending flag is down, nothing is in flight, and the answer
    has changed neither the DocumentSet nor the error slot. *)
Theorem answered_question
    (w : World) (query : jsstring) (now now' : N) (events : list Event)
    (response : GenerateContentResponse) :
  truthy (trim query) = true ->
  isLoading (rendered w) = false ->
  inflight w = [] ->
  documents (rendered w) <> [] ->
  missing (API_KEY (env w)) = false ->
  Forall (fun ev => is_answer ev = false) events ->
  paced false events ->
  let request := mkRequest (lit "gemini-2.5-flash")
                           (userPrompt query (documents (rendered w)))
                           SYSTEM_INSTRUCTION in
  let w1 := step w (QuestionSubmitted query now) in
  let w2 := run w1 events in
  let w3 := step w2 (AnswerSettled 0 (inr response) now') in
  sent w1 = sent w ++ [request]
  /\ inflight w1 = [request]
  /\ error (ui w1) = None
  /\ messages (ui w3)
     = messages (ui w)
       ++ [mkChatMessage (toString now) user query;
           mkChatMessage (toString (now' + 1)) ai (response_text response)]
  /\ userInput (ui w3) = []
  /\ isLoading (ui w3) = false
  /\ inflight w3 = []
  /\ sent w3 = sent w1
  /\ documents (ui w3) = documents (ui w2)
  /\ error (ui w3) = error (ui w2).
Proof.
  intros Hq Hl Hfl Hdocs Hkey Hevs Hpaced request w1 w2 w3.
  pose proof (handleSubmit_accepted query now w Hq Hl Hdocs) as Hsub.
  unfold askAboutDocuments, submitted in Hsub.
  rewrite Hkey, Hfl in Hsub. cbn [app] in Hsub. fold request in Hsub.
  pose proof Hsub as Hw1. change (handleSubmit query now w) with w1 in Hw1.
  destruct (run_while_pending events w1 request false)
    as (_ & Hfl2 & Hsent & Hmsg & _); [by rewrite Hw1..|exact Hevs|done|done|].
  fold w2 in Hfl2, Hsent, Hmsg.
  assert (Hw3 : w3 = mkWorld (env w2)
            (handleSubmit_resume (askAboutDocuments_resume (inr response)) now'
               (ui w2)) (rendered w2) (uploads w2) [] (sent w2)).
  { unfold w3. cbn [step]. unfold answerSettled. by rewrite Hfl2. }
  rewrite Hw3. cbn. rewrite Hmsg, Hsent, Hw1, !Hsub. cbn.
  rewrite <- app_assoc. by repeat split.
Qed.

Lemma answered_question_witness :
  let w := shown Samples.with_key
                 (mkState [Samples.doc_a] [] (lit "Why?") false
                          (Some read_error)) in
  messages (ui (run w [QuestionSubmitted (lit "Why?") 1000;
                       Rendered;
                       QuestionSubmitted (lit "Why?") 1001;
                       AnswerSettled 0 (inr (mkResponse (lit "Because."))) 1200]))
  = [mkChatMessage (lit "1000") user (lit "Why?");
     mkChatMessage (lit "1201") ai (lit "Because.")].
Proof.
  intros w.
  refine (proj1 (proj2 (proj2 (proj2 (answered_question w (lit "Why?") 1000
            1200 [Rendered; QuestionSubmitted (lit "Why?") 1001]
            (mkResponse (lit "Because."))
            eq_refl eq_refl eq_refl _ eq_refl _ _))))).
  - discriminate.
  - by repeat constructor.
  - cbn. tauto.
Defined.

(** X13. A failure of the call leaves no trace of its cause: whatever was
    thrown by the transport, and whenever, the settlement leads to the same
    state, with the one fixed message in the error slot. *)
Theorem failure_cause_is_not_exposed
    (w : World) (j : nat) (thrown thrown' : Thrown) (now now' : N) :
  step w (AnswerSettled j (inl thrown) now)
  = step w (AnswerSettled j (inl thrown') now')
  /\ (is_Some (inflight w !! j) ->
      error (ui (step w (AnswerSettled j (inl thrown) now)))
      = Some (lit "Failed to get a response from the AI. Please check the console for details.")).
Proof.
  cbn [step]. unfold answerSettled. split.
  - by destruct (inflight w !! j).
  - intros [req ->]. reflexivity.
Qed.

Lemma failure_cause_is_not_exposed_witness :
  let w := run (init Samples.with_key) Samples.asked in
  error (ui (step w (AnswerSettled 0 (inl (Error (lit "503 Service Unavailable")))
                       1200)))
  = Some (lit "Failed to get a response from the AI. Please check the console for details.").
Proof.
  intros w.
  refine (proj2 (failure_cause_is_not_exposed w 0
                   (Error (lit "503 Service Unavailable")) NotAnError 1200 0) _).
  by eexists.
Defined.

(** ** More on upload batches *)

Lemma step_settled_batch w ev b batch :
  uploads w !! b = Some batch ->
  exists batch',
    uploads (step w ev) !! b = Some batch'
    /\ (all batch <> pending -> all batch' = all batch).
Proof.
  intros Hb. pose proof (step_uploads w ev) as Hup.
  destruct ev; try (rewrite Hup; by eauto).
  - exists batch. split; [|done]. cbn [step]. unfold handleFileChange.
    repeat case_match; try done; cbn; by apply lookup_app_l_Some.
  - cbn [step]. destruct (decide (b = b0)) as [<-|Hne];
      [|rewrite taskSettled_other_batch by done; eauto].
    destruct (taskSettled_batch b i w batch Hb)
      as [[-> _]|(file & batch' & _ & _ & Hcase & _ & Hb')]; [eauto|].
    exists batch'. split; [done|]. intros Hall.
    destruct Hcase as [[_ ->]|(r & _ & ->)]; cbn; by destruct (all batch).
Qed.

(** X14. Once [Promise.all] of a batch is settled it stays as it is, and
    the tasks of that batch that end later change no state cell: a batch
    appends its documents at most once and raises its error at most once,
    however many of its files fail. *)
Theorem settled_batch_is_silent
    (w : World) (b : nat) (batch : Batch) (events : list Event) (i : nat) :
  uploads w !! b = Some batch ->
  all batch <> pending ->
  let w' := run w events in
  (exists batch', uploads w' !! b = Some batch' /\ all batch' = all batch)
  /\ ui (step w' (TaskSettled b i)) = ui w'.
Proof.
  intros Hb Hall w'.
  assert (H : exists batch', uploads w' !! b = Some batch'
                             /\ all batch' = all batch).
  { unfold w'. clear w'. revert w batch Hb Hall.
    induction events as [|ev events IH]; intros w batch Hb Hall; [eauto|].
    rewrite run_cons.
    destruct (step_settled_batch w ev b batch Hb) as (batch1 & Hb1 & Hall1).
    destruct (IH (step w ev) batch1 Hb1) as (batch' & Hb' & Hall').
    - by rewrite Hall1.
    - exists batch'. split; [done|]. by rewrite Hall', Hall1. }
  split; [exact H|]. destruct H as (batch' & Hb' & Hall').
  cbn [step].
  destruct (taskSettled_batch b i w' batch' Hb')
    as [[-> _]|(file & batch'' & _ & _ & _ & -> & _)]; [done|].
  cbn. unfold react. rewrite Hall'. by destruct (all batch).
Qed.

Lemma settled_batch_is_silent_witness :
  let fs := [Samples.corrupt_pdf; Samples.corrupt_pdf] in
  let w := run (init Samples.with_key)
               [FilesSelected (Some fs); TaskSettled 0 0;
                QuestionSubmitted (lit "Why?") 1000] in
  error (ui w) = Some (lit "Please upload at least one document before asking a question.")
  /\ ui (step w (TaskSettled 0 1)) = ui w.
Proof.
  intros fs w. split; [reflexivity|].
  refine (proj2 (settled_batch_is_silent
            (run (init Samples.with_key) [FilesSelected (Some fs); TaskSettled 0 0])
            0 (mkBatch fs [rejected; pending] [] rejected)
            [QuestionSubmitted (lit "Why?") 1000] 1 eq_refl _)).
  discriminate.
Defined.

(** *** A removal while a batch is pending *)

Lemma taskSettled_clean fs b i w batch :
  (forall file, file ∈ fs -> exists r, fileTask file = inr r) ->
  uploads w !! b = Some batch -> batch_clean fs batch ->
  exists batch', uploads (taskSettled b i w) !! b = Some batch'
                 /\ batch_clean fs batch'.
Proof.
  intros Hok Hb (Hfiles & Hlen & Hall).
  destruct (taskSettled_batch b i w batch Hb)
    as [[-> _]|(file & batch' & Hfile & Hp & Hcase & _ & Hb')];
    [by exists batch|].
  exists batch'. split; [done|].
  assert (Hnot : allFulfilled (readPromises batch) = false).
  { destruct (allFulfilled (readPromises batch)) eqn:H; [|done].
    rewrite allFulfilled_lookup in H. by specialize (H i pending Hp). }
  rewrite Hnot in Hall.
  destruct Hcase as [[[err Herr] _]|(r & _ & ->)].
  - destruct (Hok file) as [r Hr]; [|congruence].
    rewrite Hfiles in Hfile. by eapply list_elem_of_lookup_2.
  - unfold batch_clean. cbn. rewrite Hall, length_insert. done.
Qed.

Lemma run_clean fs b order : forall w batch,
  (forall file, file ∈ fs -> exists r, fileTask file = inr r) ->
  uploads w !! b = Some batch -> batch_clean fs batch ->
  exists batch', uploads (run w (map (TaskSettled b) order)) !! b = Some batch'
                 /\ batch_clean fs batch'.
Proof.
  induction order as [|i order IH]; intros w batch Hok Hb Hclean; [eauto|].
  cbn [map]. rewrite run_cons. cbn [step].
  destruct (taskSettled_clean fs b i w batch Hok Hb Hclean)
    as (batch1 & Hb1 & Hclean1).
  by apply (IH _ batch1).
Qed.

Lemma in_order_app fs order1 order2 :
  in_order fs (order1 ++ order2) = in_order fs order1 ++ in_order fs order2.
Proof. apply omap_app. Qed.

(** X15. A removal made while a batch is still pending loses neither
    update: for every batch in which every task succeeds, if a document
    name is removed after some tasks have ended and before the last ones
    have, then once the batch is complete the DocumentSet is the earlier
    one filtered by that name, followed by all the documents of the batch
    in completion order.  The removal does not reach the batch's own
    documents, even those of the removed name. *)
Theorem removal_during_upload
    (w : World) (fs : list File) (before after : list nat)
    (docName : jsstring) :
  before ++ after ≡ₚ seq 0 (length fs) ->
  after <> [] ->
  (forall file, file ∈ fs -> exists r, fileTask file = inr r) ->
  let b := length (uploads w) in
  let w' := run (handleFileChange (Some fs) w)
                (map (TaskSettled b) before
                 ++ [DocumentRemoved docName]
                 ++ map (TaskSettled b) after) in
  documents (ui w')
  = filter (fun doc => name doc <> docName) (documents (ui w))
    ++ flat_map pushed (in_order fs (before ++ after)).
Proof.
  intros Hperm Hafter Hok b w'.
  assert (Hnd : NoDup (before ++ after)) by (rewrite Hperm; apply NoDup_seq).
  apply NoDup_app in Hnd as (Hnd1 & Hdisj & Hnd2).
  assert (Hrange : forall i, i ∈ before ++ after -> (i < length fs)%nat).
  { intros i Hi. rewrite Hperm in Hi. apply elem_of_seq in Hi. lia. }
  destruct fs as [|f fs0].
  { apply Permutation_nil_r in Hperm. by destruct before, after. }
  set (fs := f :: fs0) in *.
  set (batch0 := mkBatch fs (replicate (length fs) pending) [] pending).
  set (w0 := with_uploads (uploads w ++ [batch0]) w).
  assert (Hb0 : uploads w0 !! b = Some batch0)
    by (cbn; by rewrite list_lookup_middle).
  assert (Hclean0 : batch_clean fs batch0).
  { unfold batch_clean, batch0. cbn [files readPromises all].
    by rewrite length_replicate. }
  unfold w'. change (handleFileChange (Some fs) w) with w0.
  unfold run. rewrite !fold_left_app. cbn [fold_left step].
  fold (run w0 (map (TaskSettled b) before)).
  set (w1 := run w0 (map (TaskSettled b) before)).
  destruct (run_all_succeed fs b before w0 batch0)
    as (batch1 & Hb1 & Hdocs1 & Hful1 & Hrest1 & Hui1); try done.
  { unfold batch0. cbn [readPromises]. by rewrite length_replicate. }
  { intros i Hi. unfold batch0. cbn [readPromises].
    apply lookup_replicate. split; [done|].
    apply Hrange, elem_of_app. by left. }
  fold w1 in Hb1, Hui1.
  destruct (run_clean fs b before w0 batch0 Hok Hb0 Hclean0)
    as (batch1' & Hb1' & Hfiles1 & Hlen1 & Hall1).
  fold w1 in Hb1'. rewrite Hb1 in Hb1'. injection Hb1' as <-.
  assert (Hpending1 : forall i, i ∈ after ->
            readPromises batch1 !! i = Some pending).
  { intros i Hi. rewrite Hrest1 by (intros Hi'; by apply (Hdisj i)).
    unfold batch0. cbn [readPromises].
    apply lookup_replicate. split; [done|].
    apply Hrange, elem_of_app. by right. }
  assert (Hnot1 : allFulfilled (readPromises batch1) = false).
  { destruct (allFulfilled (readPromises batch1)) eqn:H; [|done].
    rewrite allFulfilled_lookup in H. destruct after as [|i after']; [done|].
    by specialize (H i pending (Hpending1 i ltac:(by left))). }
  rewrite Hnot1 in Hall1, Hui1.
  set (w2 := with_ui (removeDocument docName (ui w1)) w1).
  fold (run w2 (map (TaskSettled b) after)).
  destruct (run_all_succeed fs b after w2 batch1)
    as (batch2 & _ & Hdocs2 & Hful2 & Hrest2 & ->); try done.
  replace (allFulfilled (readPromises batch2)) with true.
  - cbn. rewrite Hui1, Hdocs2, Hdocs1. cbn.
    by rewrite in_order_app, flat_map_app.
  - symmetry. apply allFulfilled_lookup. intros i p Hp.
    destruct (decide (i ∈ after)) as [Hi|Hi].
    { rewrite (Hful2 i Hi) in Hp. congruence. }
    rewrite (Hrest2 i Hi) in Hp.
    destruct (decide (i ∈ before)) as [Hi'|Hi'].
    { rewrite (Hful1 i Hi') in Hp. congruence. }
    exfalso. assert (Hlt : (i < length fs)%nat).
    { apply lookup_lt_Some in Hp. lia. }
    assert (Hin : i ∈ before ++ after).
    { rewrite Hperm. apply elem_of_seq. lia. }
    apply elem_of_app in Hin as [?|?]; done.
Qed.

Lemma removal_during_upload_witness :
  let fs := [Samples.text_file "a.txt" "A"; Samples.text_file "b.txt" "B"] in
  let w := shown Samples.with_key
                 (mkState [Samples.doc_a; Samples.doc_c] [] [] false None) in
  documents (ui (run w [FilesSelected (Some fs); TaskSettled 0 1;
                        DocumentRemoved (lit "a.txt"); TaskSettled 0 0]))
  = [Samples.doc_c; Samples.doc_b; Samples.doc_a].
Proof.
  intros fs w.
  refine (removal_during_upload w fs [1%nat] [0%nat] (lit "a.txt") _ _ _).
  - apply Permutation_swap.
  - discriminate.
  - intros file Hfile. unfold fs in Hfile.
    repeat (apply elem_of_cons in Hfile as [->|Hfile]; [by eexists|]).
    by apply elem_of_nil in Hfile.
Defined.

(** ** Ids and the clock *)

Lemma digits_inj d d' : digits d = digits d' -> d = d'.
Proof.
  revert d'. induction d; intros d' H; destruct d'; cbn in H; try discriminate;
    try done; injection H as H; f_equal; by apply IHd.
Qed.

(** The decimal rendering used for ids is injective: two different clock
    readings never give the same id string. *)
Lemma toString_injective (n m : N) : toString n = toString m -> n = m.
Proof.
  unfold toString. intros H.
  assert (Hnil : forall k, N.to_uint k <> Nil).
  { intros [|p]; [done|]. apply DecimalPos.Unsigned.to_uint_nonnil. }
  rewrite <- (DecimalN.Unsigned.of_to n), <- (DecimalN.Unsigned.of_to m).
  f_equal. apply digits_inj.
  pose proof (Hnil n). pose proof (Hnil m).
  by destruct (N.to_uint n), (N.to_uint m).
Qed.

Lemma step_new_message w ev :
  match ev with
  | QuestionSubmitted query now =>
      messages (ui (step w ev)) = messages (ui w)
      \/ messages (ui (step w ev))
         = messages (ui w) ++ [mkChatMessage (toString now) user query]
  | AnswerSettled _ _ now =>
      messages (ui (step w ev)) = messages (ui w)
      \/ exists answer,
           messages (ui (step w ev))
           = messages (ui w) ++ [mkChatMessage (toString (now + 1)) ai answer]
  | _ => messages (ui (step w ev)) = messages (ui w)
  end.
Proof.
  destruct ev; cbn [step ui with_ui]; try done.
  - by destruct (handleFileChange_frame selected w) as (_ & _ & _ & -> & _).
  - by destruct (handleSuggestionClick_frame suggestion w) as (-> & _).
  - unfold handleSubmit, handleSubmit_resume.
    repeat case_match; cbn; auto.
  - by destruct (taskSettled_frame b i w) as (_ & _ & _ & -> & _).
  - unfold answerSettled, handleSubmit_resume.
    repeat case_match; cbn; eauto.
Qed.

Lemma ids_below_weaken bound bound' transcript :
  bound <= bound' -> ids_below bound transcript -> ids_below bound' transcript.
Proof.
  intros Hle (values & Hids & Hsorted & Hbelow). exists values.
  split; [done|]. split; [done|].
  eapply Forall_impl; [exact Hbelow|]. intros v Hv. cbn in Hv. lia.
Qed.

Lemma ids_below_snoc bound transcript m v :
  ids_below bound transcript -> id m = toString v -> bound <= v ->
  ids_below (v + 1) (transcript ++ [m]).
Proof.
  intros (values & Hids & Hsorted & Hbelow) Hid Hle.
  exists (values ++ [v]). split; [|split].
  - unfold ids in *. rewrite !map_app, Hids. cbn [map]. by rewrite Hid.
  - apply StronglySorted_app_2; [|done|by repeat constructor].
    intros x1 x2 Hx1 Hx2. apply list_elem_of_singleton in Hx2 as ->.
    rewrite Forall_forall in Hbelow. specialize (Hbelow x1 Hx1). lia.
  - apply Forall_app. split.
    + eapply Forall_impl; [exact Hbelow|]. intros x Hx. cbn in Hx. lia.
    + constructor; [lia|done].
Qed.

Lemma run_ids_below events : forall w from,
  ids_below from (messages (ui w)) -> spaced from events ->
  exists bound, ids_below bound (messages (ui (run w events))).
Proof.
  induction events as [|ev events IH]; intros w from Hw Hsp; [eauto|].
  rewrite run_cons. pose proof (step_new_message w ev) as Hstep.
  destruct ev; cbn [spaced] in Hsp;
    try (apply (IH _ from); [by rewrite Hstep|done]).
  - destruct Hsp as [Hle Hsp]. apply (IH _ (now + 2)); [|done].
    destruct Hstep as [->| ->].
    + apply (ids_below_weaken from); [lia|done].
    + apply (ids_below_weaken (now + 1)); [lia|].
      by apply (ids_below_snoc from).
  - destruct Hsp as [Hle Hsp]. apply (IH _ (now + 2)); [|done].
    destruct Hstep as [->|[answer ->]].
    + apply (ids_below_weaken from); [lia|done].
    + apply (ids_below_weaken (now + 1 + 1)); [lia|].
      apply (ids_below_snoc from); [done|done|lia].
Qed.

(** X16. When the clock readings at which questions are submitted and
    answers arrive are each at least two milliseconds after the previous
    one, the ids of the transcript are the renderings of strictly
    increasing numbers, and therefore pairwise distinct. *)
Theorem ids_distinct_when_clock_advances (e : ProcessEnv) (events : list Event) :
  spaced 0 events ->
  let transcript := messages (ui (run (init e) events)) in
  NoDup (ids transcript)
  /\ exists values,
       ids transcript = map toString values /\ StronglySorted N.lt values.
Proof.
  intros Hsp transcript.
  destruct (run_ids_below events (init e) 0) as (bound & values & Hids & Hsorted & _);
    [by exists []; repeat split; constructor|done|].
  fold transcript in Hids. split; [|eauto].
  rewrite Hids. clear Hids. induction Hsorted as [|v values Hsorted IH Hlt];
    [constructor|].
  cbn. apply NoDup_cons. split; [|done].
  intros Hin. apply list_elem_of_In, in_map_iff in Hin as (v' & Heq & Hv').
  apply toString_injective in Heq as ->.
  rewrite List.Forall_forall in Hlt. specialize (Hlt v Hv'). lia.
Qed.

Lemma ids_distinct_when_clock_advances_witness :
  NoDup (ids (messages (ui (run (init Samples.with_key)
                                Samples.answered)))).
Proof.
  refine (proj1 (ids_distinct_when_clock_advances Samples.with_key
                   Samples.answered _)).
  cbn. lia.
Defined.

(** ** Delimiters in the prompt *)

Lemma documentBlock_spliced doc1 doc2 :
  documentBlock (spliced doc1 doc2)
  = documentBlock doc1 ++ LF ++ documentBlock doc2.
Proof. unfold documentBlock, spliced. cbn [name content]. by rewrite <- !app_assoc. Qed.

Lemma join_spliced doc1 doc2 blocks :
  join LF (documentBlock (spliced doc1 doc2) :: blocks)
  = join LF (documentBlock doc1 :: documentBlock doc2 :: blocks).
Proof.
  rewrite documentBlock_spliced. destruct blocks as [|block blocks].
  - reflexivity.
  - change (join LF (documentBlock doc1 :: documentBlock doc2 :: block :: blocks))
      with (documentBlock doc1 ++ LF ++ documentBlock doc2 ++ LF
            ++ join LF (block :: blocks)).
    change (join LF ((documentBlock doc1 ++ LF ++ documentBlock doc2)
                       :: block :: blocks))
      with ((documentBlock doc1 ++ LF ++ documentBlock doc2) ++ LF
            ++ join LF (block :: blocks)).
    by rewrite <- !app_assoc.
Qed.

Lemma join_cons_nonempty sep p (parts : list jsstring) :
  parts <> [] -> join sep (p :: parts) = p ++ sep ++ join sep parts.
Proof. by destruct parts. Qed.

Lemma documentsContext_spliced before after doc1 doc2 :
  documentsContext (before ++ spliced doc1 doc2 :: after)
  = documentsContext (before ++ doc1 :: doc2 :: after).
Proof.
  unfold documentsContext.
  induction before as [|doc before IH]; [apply join_spliced|].
  cbn [app map]. rewrite !join_cons_nonempty, IH; [done|..];
    by destruct before.
Qed.

(** X17. The prompt does not escape its delimiters: a document whose text
    continues with the end of a block and the label of a second document
    yields, at any place of the DocumentSet and for any question, the very
    prompt that the two separate documents yield. *)
Theorem prompt_does_not_escape_delimiters
    (question : jsstring) (before after : list DocumentFile)
    (doc1 doc2 : DocumentFile) :
  userPrompt question (before ++ spliced doc1 doc2 :: after)
  = userPrompt question (before ++ doc1 :: doc2 :: after).
Proof. unfold userPrompt. by rewrite documentsContext_spliced. Qed.

(** ** The controls and the handlers *)

Lemma handleSubmit_messages query now w :
  messages (ui (handleSubmit query now w)) = messages (ui w)
  \/ (truthy (trim query) = true /\ isLoading (rendered w) = false
      /\ documents (rendered w) <> []
      /\ messages (ui (handleSubmit query now w))
         = messages (ui w) ++ [mkChatMessage (toString now) user query]
      /\ error (ui (handleSubmit query now w))
         <> Some (lit "Please upload at least one document before asking a question.")).
Proof.
  unfold handleSubmit.
  destruct (truthy (trim query)); [|by left].
  destruct (isLoading (rendered w)); [by left|].
  destruct (documents (rendered w)) as [|doc docs]; [by left|].
  right. do 3 (split; [done|]). cbn. unfold askAboutDocuments.
  by destruct (missing (API_KEY (env w))).
Qed.

(** X18. The send button is enabled exactly when submitting the input of
    the render is accepted, that is when it appends that input to the
    transcript as a user message: the button's [disabled] expression and
    the guards of [handleSubmit], both of the same render, agree. *)
Theorem send_enabled_iff_accepted (w : World) (now : N) :
  sendDisabled (rendered w) = false
  <-> messages (ui (handleSubmit (userInput (rendered w)) now w))
      = messages (ui w)
        ++ [mkChatMessage (toString now) user (userInput (rendered w))].
Proof.
  unfold sendDisabled. split.
  - intros H. apply orb_false_elim in H as [H Hdocs].
    apply orb_false_elim in H as [Hq Hl]. apply negb_false_iff in Hq.
    destruct (handleSubmit_messages (userInput (rendered w)) now w)
      as [Hsame|(_ & _ & _ & Hmsg & _)]; [|done].
    exfalso. unfold handleSubmit in Hsame. rewrite Hq, Hl, Hdocs in Hsame.
    cbn in Hsame. unfold askAboutDocuments in Hsame.
    destruct (missing _); cbn in Hsame;
      apply (f_equal length) in Hsame; rewrite length_app in Hsame;
      cbn in Hsame; lia.
  - intros Hmsg.
    destruct (handleSubmit_messages (userInput (rendered w)) now w)
      as [Hsame|(Hq & Hl & Hdocs & _)].
    + rewrite Hsame in Hmsg. apply (f_equal length) in Hmsg.
      rewrite length_app in Hmsg. cbn in Hmsg. lia.
    + rewrite Hq, Hl. by destruct (documents (rendered w)).
Qed.

Lemma send_enabled_iff_accepted_witness :
  let w := shown Samples.with_key
                 (mkState [Samples.doc_a] [] (lit "Why?") false None) in
  messages (ui (handleSubmit (lit "Why?") 1000 w))
  = [mkChatMessage (lit "1000") user (lit "Why?")].
Proof.
  intros w. exact (proj1 (send_enabled_iff_accepted w 1000) eq_refl).
Defined.

(** X19. From the rendered controls a submission is either without any
    effect or accepted: pressing a key in the textarea or clicking the send
    button never reaches the branch of [handleSubmit] that asks for a
    document, because both controls are disabled in a render whose
    DocumentSet is empty or whose pending flag is up, and the handler reads
    the same render. *)
Theorem controls_submit_only_when_accepted
    (w : World) (key : jsstring) (shiftKey : bool) (now : N) :
  let accepted w' :=
    documents (rendered w) <> [] /\ isLoading (rendered w) = false
    /\ truthy (trim (userInput (rendered w))) = true
    /\ messages (ui w')
       = messages (ui w)
         ++ [mkChatMessage (toString now) user (userInput (rendered w))]
    /\ error (ui w')
       <> Some (lit "Please upload at least one document before asking a question.") in
  (onKeyDown key shiftKey now w = w \/ accepted (onKeyDown key shiftKey now w))
  /\ (onSendClick now w = w \/ accepted (onSendClick now w)).
Proof.
  cbv zeta. unfold onKeyDown, onSendClick, textareaDisabled, sendDisabled.
  assert (H : forall query,
            isLoading (rendered w) = false -> documents (rendered w) <> [] ->
            handleSubmit query now w = w
            \/ truthy (trim query) = true
               /\ messages (ui (handleSubmit query now w))
                  = messages (ui w) ++ [mkChatMessage (toString now) user query]
               /\ error (ui (handleSubmit query now w))
                  <> Some (lit "Please upload at least one document before asking a question.")).
  { intros query Hl Hdocs.
    destruct (truthy (trim query)) eqn:Hq.
    - right. destruct (handleSubmit_messages query now w)
        as [Hsame|(_ & _ & _ & Hmsg & Herr)]; [|done].
      exfalso. rewrite handleSubmit_accepted in Hsame by done.
      destruct (askAboutDocuments _ _ _) as [[?|]|?]; cbn in Hsame;
        apply (f_equal length) in Hsame; rewrite length_app in Hsame;
        cbn in Hsame; lia.
    - left. unfold handleSubmit. by rewrite Hq. }
  destruct (isLoading (rendered w)) eqn:Hl; cbn [orb];
    [rewrite orb_true_r; by split; left|].
  destruct (documents (rendered w)) as [|doc docs] eqn:Hdocs;
    cbn [length Nat.eqb]; [rewrite orb_true_r; by split; left|].
  rewrite !orb_false_r. split.
  - destruct (bool_decide (key = lit "Enter") && negb shiftKey); [|by left].
    destruct (H (userInput (rendered w))) as [?|(? & ? & ?)];
      [done|done|by left|].
    right. by repeat split.
  - destruct (truthy (trim (userInput (rendered w)))) eqn:Hq; [|by left]. cbn.
    destruct (H (userInput (rendered w))) as [?|(? & ? & ?)];
      [done|done|by left|].
    right. by repeat split.
Qed.

Lemma suggestions_not_blank s :
  s ∈ suggestions -> truthy (trim s) = true.
Proof.
  unfold suggestions. intros Hs.
  repeat (apply elem_of_cons in Hs as [->|Hs]; [by vm_compute|]).
  by apply elem_of_nil in Hs.
Qed.

(** X20. Choosing a suggestion, in a component whose render is up to date,
    never sends anything by itself.  With an empty DocumentSet it puts the
    message asking for a document in the error slot and the send button
    stays disabled; with documents and no question pending it fills the
    input with the suggestion, which enables the send button at the next
    render, and clicking it then opens the transcript with the suggestion
    as the user message. *)
Theorem suggestion_fills_the_input
    (w : World) (k : nat) (s : jsstring) (now : N) :
  suggestions !! k = Some s ->
  rendered w = ui w ->
  messages (ui w) = [] ->
  isLoading (ui w) = false ->
  let w1 := onSuggestionClick k w in
  sent w1 = sent w
  /\ inflight w1 = inflight w
  /\ messages (ui w1) = []
  /\ (documents (ui w) = [] ->
      error (ui w1) = Some (lit "Please upload a document first.")
      /\ userInput (ui w1) = userInput (ui w)
      /\ sendDisabled (rendered (render w1)) = true)
  /\ (documents (ui w) <> [] ->
      userInput (ui w1) = s
      /\ error (ui w1) = error (ui w)
      /\ sendDisabled (rendered (render w1)) = false
      /\ messages (ui (onSendClick now (render w1)))
         = [mkChatMessage (toString now) user s]).
Proof.
  intros Hs Hfresh Hmsg Hl w1.
  assert (Hblank : truthy (trim s) = true).
  { apply suggestions_not_blank. by eapply list_elem_of_lookup_2. }
  unfold w1, onSuggestionClick, welcomeShown. rewrite Hfresh, Hmsg, Hs.
  cbn [length Nat.eqb]. unfold handleSuggestionClick. rewrite Hfresh.
  destruct (documents (ui w)) as [|doc docs] eqn:Hdocs; cbn [length Nat.eqb].
  - cbn. rewrite ?Hdocs. do 3 (split; [done|]). split; [|done].
    intros _. split; [done|]. split; [done|].
    unfold sendDisabled. cbn. rewrite ?Hdocs. cbn. by rewrite orb_true_r.
  - cbn [ui with_ui sent inflight render rendered].
    do 2 (split; [done|]). split; [exact Hmsg|]. split; [done|]. intros _.
    do 2 (split; [done|]).
    assert (Hen : sendDisabled (setUserInput s (ui w)) = false).
    { unfold sendDisabled, setUserInput.
      cbn [userInput isLoading documents]. by rewrite Hblank, Hl, ?Hdocs. }
    split; [exact Hen|].
    unfold onSendClick, render.
    cbn [rendered ui with_ui env uploads inflight sent]. rewrite Hen.
    rewrite handleSubmit_accepted; cbn; rewrite ?Hdocs; try done.
    destruct (askAboutDocuments _ _ _) as [[?|]|?]; cbn; by rewrite Hmsg.
Qed.

Lemma suggestion_fills_the_input_witness :
  let w := shown Samples.with_key (mkState [Samples.doc_a] [] [] false None) in
  messages (ui (onSendClick 1000 (render (onSuggestionClick 0 w))))
  = [mkChatMessage (lit "1000") user (lit "Summarize this document.")].
Proof.
  intros w.
  refine (proj2 (proj2 (proj2 (proj2 (proj2 (proj2 (proj2
            (suggestion_fills_the_input w 0 (lit "Summarize this document.")
               1000 eq_refl eq_refl eq_refl eq_refl)))) _)))).
  discriminate.
Defined.

(** ** Removal, again *)

Lemma filter_name_absent docName (docs : list DocumentFile) :
  Forall (fun doc => name doc <> docName) docs ->
  filter (fun doc => name doc <> docName) docs = docs.
Proof.
  induction 1 as [|doc docs Hdoc _ IH]; [done|].
  by rewrite filter_cons_True, IH.
Qed.

(** X21. Removal by name is idempotent, removals of two names commute, and
    removing a name that no document bears changes nothing at all. *)
Theorem removeDocument_algebra (n m : jsstring) (st : AppState) :
  removeDocument n (removeDocument n st) = removeDocument n st
  /\ removeDocument n (removeDocument m st)
     = removeDocument m (removeDocument n st)
  /\ (Forall (fun doc => name doc <> n) (documents st) ->
      removeDocument n st = st).
Proof.
  unfold removeDocument, setDocuments. cbn. repeat split.
  - f_equal. rewrite list_filter_filter. apply list_filter_iff. tauto.
  - f_equal. rewrite !list_filter_filter. apply list_filter_iff. tauto.
  - intros H. destruct st. cbn in *. f_equal. by apply filter_name_absent.
Qed.

Lemma removeDocument_algebra_witness :
  let st := mkState [Samples.doc_a; Samples.doc_c] [] [] false None in
  removeDocument (lit "b.txt") st = st.
Proof.
  intros st.
  apply (removeDocument_algebra (lit "b.txt") (lit "b.txt") st).
  repeat constructor; vm_compute; discriminate.
Defined.

